(** * Server-Pulsa-App: the transaction repository

    A shallow embedding of [internal/repository/transaction_repository.go]
    ([Create], [GetAll], [GetById]) together with the part of the relational
    store these functions talk to, and the properties of the
    transaction-processing core stated over it. *)

From Stdlib Require Import Ascii String Floats.
From stdpp Require Import gmap strings list fin_maps pretty.

(** ** Amounts

    Balances, nominal values and prices are scanned by the code into Go
    [float64] variables; they are IEEE 754 binary64 numbers here. *)

Abbreviation float64 := PrimFloat.float.

Definition f64_zero : float64 := 0%float.

(** ** Calendar dates and [time.Parse] / [Time.Format] at layout [02-01-2006] *)

Module time.

Record Time := mkTime { year : nat; month : nat; day : nat }.

Definition isDigit (a : ascii) : bool :=
  (48 <=? nat_of_ascii a)%nat && (nat_of_ascii a <=? 57)%nat.

Definition digit (a : ascii) : nat := nat_of_ascii a - 48.

(** [getnum(s, fixed=true)]: exactly two leading digits. *)
Definition getnum (s : string) : option (nat * string) :=
  match s with
  | String a (String b rest) =>
      if isDigit a && isDigit b then Some (digit a * 10 + digit b, rest)
      else None
  | _ => None
  end.

(** [skip(value, "-")]: the literal separator of the layout. *)
Definition skip (s : string) : option string :=
  match s with
  | String "-"%char rest => Some rest
  | _ => None
  end.

(** The [stdLongYear] case: four characters, all of them digits. *)
Definition getyear (s : string) : option (nat * string) :=
  match s with
  | String a (String b (String c (String d rest))) =>
      if isDigit a && isDigit b && isDigit c && isDigit d
      then Some (((digit a * 10 + digit b) * 10 + digit c) * 10 + digit d, rest)
      else None
  | _ => None
  end.

Definition isLeap (y : nat) : bool :=
  (y mod 4 =? 0)%nat && (negb (y mod 100 =? 0)%nat || (y mod 400 =? 0)%nat).

Definition daysIn (m y : nat) : nat :=
  match m with
  | 2 => if isLeap y then 29 else 28
  | 4 | 6 | 9 | 11 => 30
  | _ => 31
  end.

(** [time.Parse("02-01-2006", value)]: [None] stands for a non-nil error. *)
Definition Parse (value : string) : option Time :=
  match getnum value with
  | None => None
  | Some (d, value) =>
    match skip value with
    | None => None
    | Some value =>
      match getnum value with
      | None => None
      | Some (m, value) =>
        if (m =? 0)%nat || (12 <? m)%nat then None else
        match skip value with
        | None => None
        | Some value =>
          match getyear value with
          | None => None
          | Some (y, value) =>
            match value with
            | String _ _ => None
            | EmptyString =>
                if (d <? 1)%nat || (daysIn m y <? d)%nat then None
                else Some (mkTime y m d)
            end
          end
        end
      end
    end
  end.

(** The zero value [time.Time{}]: January 1 of year 1. *)
Definition zero : Time := mkTime 1 1 1.

(** [a] is not after [b]. *)
Definition leb (a b : Time) : bool :=
  (year a <? year b)%nat
  || ((year a =? year b)%nat
      && ((month a <? month b)%nat
          || ((month a =? month b)%nat && (day a <=? day b)%nat))).

Definition digitChar (n : nat) : ascii := ascii_of_nat (48 + n mod 10).

(** [appendInt(b, x, width)] for the widths of the layout. *)
Definition pad2 (n : nat) : string :=
  String (digitChar (n / 10)) (String (digitChar n) "").

Definition pad4 (n : nat) : string :=
  String (digitChar (n / 1000)) (String (digitChar (n / 100))
    (String (digitChar (n / 10)) (String (digitChar n) ""))).

(** [t.Format("02-01-2006")]. *)
Definition Format (t : Time) : string :=
  pad2 (day t) +:+ "-" +:+ pad2 (month t) +:+ "-" +:+ pad4 (year t).

End time.

(** ** Entities handled by [Create] (package [entity])

    The fields are the ones the repository reads and writes. *)

Module entity.

Module TransactionDetail.
Record t := mk {
  TransactionDetailId : string;
  TransactionsId : string;
  ProductId : string;
  Price : float64
}.
End TransactionDetail.

Module Transactions.
Record t := mk {
  TransactionsId : string;
  MerchantId : string;
  UserId : string;
  CustomerName : string;
  DestinationNumber : string;
  TransactionDate : string;
  TransactionDetail : list TransactionDetail.t
}.
End Transactions.

End entity.

(** ** The relational store

    One record per table row, with the columns the SQL text of the
    repository names.  [mst_merchant] and [mst_product] are keyed by their
    identifier; [transactions] and [transaction_detail] grow by appending.
    The schema is not among the sources: the amount columns have the type
    the code scans them into, and [balance - $1] is the subtraction of that
    type. *)

Module mst_merchant.
Record row := mk {
  name_merchant : string;
  address : string;
  id_user : string;
  balance : float64
}.
End mst_merchant.

Module mst_product.
Record row := mk {
  name_provider : string;
  nominal : float64;
  price : float64
}.
End mst_product.

Module transactions.
Record row := mk {
  transaction_id : string;
  id_merchant : string;
  id_user : string;
  customer_name : string;
  destination_number : string;
  transaction_date : time.Time
}.
End transactions.

Module transaction_detail.
Record row := mk {
  transaction_detail_id : string;
  transaction_id : string;
  id_product : string;
  price : float64
}.
End transaction_detail.

Record Tables := mkTables {
  merchants : gmap string mst_merchant.row;
  products : gmap string mst_product.row;
  orders : list transactions.row;
  order_lines : list transaction_detail.row
}.

(** What goes over the connection, in the order it is issued. *)
Inductive Event :=
| EvBegin
| EvSelectBalance
| EvSelectNominal
| EvInsertTransaction
| EvInsertTransactionDetail
| EvSelectPrice
| EvUpdateBalance
| EvRollback
| EvCommit.

(** The connection [r.db]: the committed tables, the working copy of the
    open atomic unit ([None] when there is none), the generator of
    identifiers (not transactional: a rollback does not rewind it) and the
    log of everything issued so far. *)
Record Conn := mkConn {
  committed : Tables;
  tx : option Tables;
  sequence : nat;
  log : list Event
}.

(** The errors [Create] returns: [InvalidDateFormat] is the
    [invalid date format. Please use dd-mm-yyyy format] error,
    [InsufficientBalance required current] the
    [insufficient merchant balance: required %v, current balance %v] error
    with its two values; the others are errors of [database/sql], passed on
    as they come ([ErrNoRows] from [Scan] on an empty result, [ErrDriver]
    for a request the store refuses). *)
Inductive Error :=
| InvalidDateFormat
| ErrNoRows
| ErrTxDone
| ErrDriver
| InsufficientBalance (required current : float64).

Inductive Res (A : Type) :=
| Ok (a : A)
| Err (e : Error).
Arguments Ok {A} a.
Arguments Err {A} e.

(** Go code that has the connection in scope and returns [(A, error)]. *)
Definition M (A : Type) : Type := Conn -> Res A * Conn.

Definition ret {A} (a : A) : M A := fun c => (Ok a, c).

Definition raise {A} (e : Error) : M A := fun c => (Err e, c).

Definition bind {A B} (m : M A) (k : A -> M B) : M B :=
  fun c =>
    match m c with
    | (Ok a, c') => k a c'
    | (Err e, c') => (Err e, c')
    end.

Declare Scope go_scope.
Delimit Scope go_scope with go.
Notation "x <- m ;; k" := (bind m (fun x => k))
  (at level 100, m at next level, right associativity) : go_scope.
Notation "m ;; k" := (bind m (fun _ => k))
  (at level 100, right associativity) : go_scope.
Local Open Scope go_scope.

Definition record (ev : Event) (c : Conn) : Conn :=
  mkConn (committed c) (tx c) (sequence c) (log c ++ [ev]).

Definition with_tx (w : option Tables) (c : Conn) : Conn :=
  mkConn (committed c) w (sequence c) (log c).

Section Repository.

(** [faulty n] tells whether the store refuses the [n]-th request made on
    the connection (lost connection, constraint violation, ...). *)
Variable faulty : nat -> bool.

(** [r.db.Begin()] *)
Definition db_Begin : M unit :=
  fun c =>
    if faulty (length (log c)) then (Err ErrDriver, record EvBegin c)
    else (Ok tt, with_tx (Some (committed c)) (record EvBegin c)).

(** [tx.Rollback()]: the working copy is dropped.  The code ignores the
    value [Rollback] returns. *)
Definition tx_Rollback : M unit :=
  fun c => (Ok tt, with_tx None (record EvRollback c)).

(** [tx.Commit()]: the working copy becomes the committed state; a commit
    the store refuses leaves the committed state as it was. *)
Definition tx_Commit : M unit :=
  fun c =>
    if faulty (length (log c)) then (Err ErrDriver, with_tx None (record EvCommit c))
    else match tx c with
         | None => (Err ErrTxDone, record EvCommit c)
         | Some w =>
             (Ok tt, mkConn w None (sequence c) (log c ++ [EvCommit]))
         end.

(** [tx.QueryRow(sql, args...).Scan(&v)] for a statement that only reads. *)
Definition tx_query {A} (ev : Event) (read : Tables -> Res A) : M A :=
  fun c =>
    if faulty (length (log c)) then (Err ErrDriver, record ev c)
    else match tx c with
         | None => (Err ErrTxDone, record ev c)
         | Some w => (read w, record ev c)
         end.

(** [INSERT ... RETURNING id] scanned into a string: the store generates
    the identifier. *)
Definition tx_insert (ev : Event) (ins : string -> Tables -> Tables) : M string :=
  fun c =>
    if faulty (length (log c)) then (Err ErrDriver, record ev c)
    else match tx c with
         | None => (Err ErrTxDone, record ev c)
         | Some w =>
             let id := pretty (sequence c) in
             (Ok id, mkConn (committed c) (Some (ins id w)) (S (sequence c))
                            (log c ++ [ev]))
         end.

(** [UPDATE ... RETURNING v] scanned into [v]. *)
Definition tx_update {A} (ev : Event) (upd : Tables -> Res (A * Tables)) : M A :=
  fun c =>
    if faulty (length (log c)) then (Err ErrDriver, record ev c)
    else match tx c with
         | None => (Err ErrTxDone, record ev c)
         | Some w =>
             match upd w with
             | Ok (a, w') => (Ok a, with_tx (Some w') (record ev c))
             | Err e => (Err e, record ev c)
             end
         end.

(** [SELECT balance FROM mst_merchant WHERE id_merchant = $1 FOR UPDATE] *)
Definition select_balance (id_merchant : string) : M float64 :=
  tx_query EvSelectBalance (fun w =>
    match merchants w !! id_merchant with
    | Some m => Ok (mst_merchant.balance m)
    | None => Err ErrNoRows
    end).

(** [SELECT nominal FROM mst_product WHERE id_product = $1] *)
Definition select_nominal (id_product : string) : M float64 :=
  tx_query EvSelectNominal (fun w =>
    match products w !! id_product with
    | Some p => Ok (mst_product.nominal p)
    | None => Err ErrNoRows
    end).

(** [SELECT price FROM mst_product WHERE id_product = $1] *)
Definition select_price (id_product : string) : M float64 :=
  tx_query EvSelectPrice (fun w =>
    match products w !! id_product with
    | Some p => Ok (mst_product.price p)
    | None => Err ErrNoRows
    end).

(** [INSERT INTO transactions (id_merchant, id_user, customer_name,
    destination_number, transaction_date) VALUES ($1, $2, $3, $4, $5)
    RETURNING transaction_id] *)
Definition insertTransaction
    (id_merchant id_user customer_name destination_number : string)
    (transaction_date : time.Time) : M string :=
  tx_insert EvInsertTransaction (fun id w =>
    mkTables (merchants w) (products w)
      (orders w ++ [transactions.mk id id_merchant id_user customer_name
                      destination_number transaction_date])
      (order_lines w)).

(** [INSERT INTO transaction_detail (transaction_id, id_product, price)
    VALUES ($1, $2, $3) RETURNING transaction_detail_id] *)
Definition insertTransactionDetail
    (transaction_id id_product : string) (price : float64) : M string :=
  tx_insert EvInsertTransactionDetail (fun id w =>
    mkTables (merchants w) (products w) (orders w)
      (order_lines w ++ [transaction_detail.mk id transaction_id id_product price])).

(** [SET balance = balance - $1] on one row. *)
Definition debit (amount : float64) (m : mst_merchant.row) : mst_merchant.row :=
  mst_merchant.mk (mst_merchant.name_merchant m) (mst_merchant.address m)
    (mst_merchant.id_user m) (mst_merchant.balance m - amount)%float.

(** [UPDATE mst_merchant SET balance = balance - $1 WHERE id_merchant = $2
    RETURNING balance] *)
Definition updateMerchantBalance (amount : float64) (id_merchant : string) : M float64 :=
  tx_update EvUpdateBalance (fun w =>
    match merchants w !! id_merchant with
    | Some m =>
        Ok (mst_merchant.balance (debit amount m),
            mkTables (<[id_merchant := debit amount m]> (merchants w))
              (products w) (orders w) (order_lines w))
    | None => Err ErrNoRows
    end).

(** The recurring [if err != nil { tx.Rollback(); ...; return ..., err }]. *)
Definition orRollback {A} (m : M A) : M A :=
  fun c =>
    match m c with
    | (Ok a, c') => (Ok a, c')
    | (Err e, c') => (Err e, snd (tx_Rollback c'))
    end.

Import entity.

(** The first loop of [Create]: [totalNominal += nominal] per line. *)
Fixpoint sumNominal (details : list TransactionDetail.t) (totalNominal : float64)
    : M float64 :=
  match details with
  | [] => ret totalNominal
  | detail :: rest =>
      nominal <- orRollback (select_nominal (TransactionDetail.ProductId detail)) ;;
      sumNominal rest (totalNominal + nominal)%float
  end.

(** The second loop of [Create]: insert the line with the price the payload
    carries, then fill in the identifiers and the price read from
    [mst_product].  The code writes these through the slice of the payload;
    the model hands the updated lines on. *)
Fixpoint insertDetails (transactionId : string) (details : list TransactionDetail.t)
    : M (list TransactionDetail.t) :=
  match details with
  | [] => ret []
  | detail :: rest =>
      transactionDetailId <-
        orRollback (insertTransactionDetail transactionId
                      (TransactionDetail.ProductId detail)
                      (TransactionDetail.Price detail)) ;;
      productPrice <- orRollback (select_price (TransactionDetail.ProductId detail)) ;;
      rest' <- insertDetails transactionId rest ;;
      ret (TransactionDetail.mk transactionDetailId transactionId
             (TransactionDetail.ProductId detail) productPrice :: rest')
  end.

(** [func (r *transactionRepository) Create(payload entity.Transactions)] *)
Definition Create (payload : Transactions.t) : M Transactions.t :=
  match time.Parse (Transactions.TransactionDate payload) with
  | None => raise InvalidDateFormat
  | Some parsedDate =>
      db_Begin ;;
      currentBalance <- orRollback (select_balance (Transactions.MerchantId payload)) ;;
      totalNominal <- sumNominal (Transactions.TransactionDetail payload) f64_zero ;;
      if (currentBalance <? totalNominal)%float then
        tx_Rollback ;;
        raise (InsufficientBalance totalNominal currentBalance)
      else
        transactionId <-
          orRollback (insertTransaction (Transactions.MerchantId payload)
                        (Transactions.UserId payload)
                        (Transactions.CustomerName payload)
                        (Transactions.DestinationNumber payload) parsedDate) ;;
        details <- insertDetails transactionId (Transactions.TransactionDetail payload) ;;
        newBalance <-
          orRollback (updateMerchantBalance totalNominal
                        (Transactions.MerchantId payload)) ;;
        tx_Commit ;;
        ret (Transactions.mk transactionId
               (Transactions.MerchantId payload)
               (Transactions.UserId payload)
               (Transactions.CustomerName payload)
               (Transactions.DestinationNumber payload)
               (time.Format parsedDate)
               details)
  end.

End Repository.

(** ** The read paths

    The aggregates of package [custom], with the fields the repository
    fills in. *)

Module custom.

Module UserRes.
Record t := mk { Id_user : string; Username : string; Role : string }.
End UserRes.

Module MerchantRes.
Record t := mk { IdMerchant : string; NameMerchant : string; Address : string }.
End MerchantRes.

Module ProductRes.
Record t := mk {
  IdProduct : string;
  NameProvider : string;
  Nominal : float64;
  Price : float64
}.
End ProductRes.

Module TransactionDetailReq.
Record t := mk {
  TransactionDetailId : string;
  TransactionsId : string;
  Product : ProductRes.t
}.
End TransactionDetailReq.

Module TransactionsReq.
Record t := mk {
  TransactionsId : string;
  CustomerName : string;
  DestinationNumber : string;
  TransactionDate : time.Time;
  User : UserRes.t;
  Merchant : MerchantRes.t;
  TransactionDetail : list TransactionDetailReq.t
}.

(** [custom.TransactionsReq{}] *)
Definition zero : t :=
  mk "" "" "" time.zero (UserRes.mk "" "" "") (MerchantRes.mk "" "" "") [].
End TransactionsReq.

End custom.

(** One row of the join of [transactions], [mst_user], [mst_merchant],
    [transaction_detail] and [mst_product] that both read paths select.
    The query of [GetById] has no [td.transaction_id] column; [GetById]
    does not look at that field. *)
Module joined.
Record row := mk {
  t_transaction_id : string;
  t_customer_name : string;
  t_destination_number : string;
  t_transaction_date : time.Time;
  u_id_user : string;
  u_username : string;
  u_role : string;
  m_id_merchant : string;
  m_name_merchant : string;
  m_address : string;
  td_transaction_detail_id : string;
  td_transaction_id : string;
  p_id_product : string;
  p_name_provider : string;
  p_nominal : float64;
  p_price : float64
}.
End joined.

Section ReadPaths.

Import custom joined.

(** [for k, v := range m] over a Go map: every entry once, in an order the
    language leaves unspecified. *)
Definition range {V} (m : gmap string V) (visited : list (string * V)) : Prop :=
  visited ≡ₚ map_to_list m.

Definition scanUser (r : row) : UserRes.t :=
  UserRes.mk (u_id_user r) (u_username r) (u_role r).

Definition scanMerchant (r : row) : MerchantRes.t :=
  MerchantRes.mk (m_id_merchant r) (m_name_merchant r) (m_address r).

Definition scanProduct (r : row) : ProductRes.t :=
  ProductRes.mk (p_id_product r) (p_name_provider r) (p_nominal r) (p_price r).

(** The [transactionDetail] of one iteration of the loop of [GetAll]. *)
Definition GetAll_detail (r : row) : TransactionDetailReq.t :=
  TransactionDetailReq.mk (td_transaction_detail_id r) (td_transaction_id r)
    (scanProduct r).

(** The [transaction] of one iteration of the loop of [GetAll], as it is
    stored for an identifier met for the first time. *)
Definition GetAll_first (r : row) : TransactionsReq.t :=
  TransactionsReq.mk (t_transaction_id r) (t_customer_name r)
    (t_destination_number r) (t_transaction_date r)
    (scanUser r) (scanMerchant r) [GetAll_detail r].

Definition appendDetail (existingTransaction : TransactionsReq.t)
    (transactionDetail : TransactionDetailReq.t) : TransactionsReq.t :=
  TransactionsReq.mk
    (TransactionsReq.TransactionsId existingTransaction)
    (TransactionsReq.CustomerName existingTransaction)
    (TransactionsReq.DestinationNumber existingTransaction)
    (TransactionsReq.TransactionDate existingTransaction)
    (TransactionsReq.User existingTransaction)
    (TransactionsReq.Merchant existingTransaction)
    (TransactionsReq.TransactionDetail existingTransaction ++ [transactionDetail]).

(** The body of [for rows.Next()] in [GetAll].  The map holds pointers, so
    appending through [existingTransaction] updates the entry. *)
Definition GetAll_scan (transactionMap : gmap string TransactionsReq.t) (r : row)
    : gmap string TransactionsReq.t :=
  match transactionMap !! t_transaction_id r with
  | Some existingTransaction =>
      <[t_transaction_id r := appendDetail existingTransaction (GetAll_detail r)]>
        transactionMap
  | None => <[t_transaction_id r := GetAll_first r]> transactionMap
  end.

Definition GetAll_transactionMap (rows : list row) : gmap string TransactionsReq.t :=
  fold_left GetAll_scan rows ∅.

(** [GetAll]: [query] is what [r.db.Query] returned, [result] a value the
    function may return on it.  The rows are well-typed, so [rows.Scan]
    and [rows.Err] report nothing. *)
Definition GetAll (query : Res (list row)) (result : Res (list TransactionsReq.t))
    : Prop :=
  match query with
  | Err e => result = Err e
  | Ok rows =>
      exists visited,
        range (GetAll_transactionMap rows) visited /\ result = Ok (visited.*2)
  end.

(** The [transactionDetail] of one iteration of the loop of [GetById]:
    its [TransactionsId] is not scanned. *)
Definition GetById_detail (r : row) : TransactionDetailReq.t :=
  TransactionDetailReq.mk (td_transaction_detail_id r) "" (scanProduct r).

(** The header fields are scanned into [transaction] on every row the loop
    reads; its line collection is left alone until the loop is over. *)
Definition GetById_scan (transaction : TransactionsReq.t) (r : row) : TransactionsReq.t :=
  TransactionsReq.mk (t_transaction_id r) (t_customer_name r)
    (t_destination_number r) (t_transaction_date r)
    (scanUser r) (scanMerchant r)
    (TransactionsReq.TransactionDetail transaction).

(** The loop of [GetById] over the rows the cursor has not reached yet.
    [rows.Next()] is called twice per round: in the loop condition (the
    outer match) and in [if !rows.Next() { break }] (the inner match);
    each call moves the cursor one row on, and only the row the loop
    condition reached is scanned. *)
Fixpoint GetById_loop (rows : list row) (transaction : TransactionsReq.t)
    (transactionDetailMap : gmap string TransactionDetailReq.t)
    : TransactionsReq.t * gmap string TransactionDetailReq.t :=
  match rows with
  | [] => (transaction, transactionDetailMap)
  | r :: rows =>
      let transaction := GetById_scan transaction r in
      let transactionDetailMap :=
        <[td_transaction_detail_id r := GetById_detail r]> transactionDetailMap in
      match rows with
      | [] => (transaction, transactionDetailMap)
      | _ :: rows => GetById_loop rows transaction transactionDetailMap
      end
  end.

Definition withDetails (transaction : TransactionsReq.t)
    (details : list TransactionDetailReq.t) : TransactionsReq.t :=
  TransactionsReq.mk
    (TransactionsReq.TransactionsId transaction)
    (TransactionsReq.CustomerName transaction)
    (TransactionsReq.DestinationNumber transaction)
    (TransactionsReq.TransactionDate transaction)
    (TransactionsReq.User transaction)
    (TransactionsReq.Merchant transaction)
    (TransactionsReq.TransactionDetail transaction ++ details).

(** [GetById]: [query] is what [r.db.Query] returned, [result] a value the
    function may return on it. *)
Definition GetById (query : Res (list row)) (result : Res TransactionsReq.t) : Prop :=
  match query with
  | Err e => result = Err e
  | Ok rows =>
      let '(transaction, transactionDetailMap) :=
        GetById_loop rows TransactionsReq.zero ∅ in
      exists visited,
        range transactionDetailMap visited /\
        result = Ok (withDetails transaction (visited.*2))
  end.

(** A list of aggregates is in descending order of transaction date. *)
Fixpoint dateDescending (l : list TransactionsReq.t) : bool :=
  match l with
  | a :: (b :: _) as rest =>
      time.leb (TransactionsReq.TransactionDate b) (TransactionsReq.TransactionDate a)
      && dateDescending rest
  | _ => true
  end.

End ReadPaths.

(** ** Vocabulary for the properties of [Create] *)

Section CreateSpec.

Import entity.

(** The rows the second loop of [Create] inserts for the lines [details] of
    order [tid] when the generator stands at [seq]. *)
Fixpoint lineRows (tid : string) (seq : nat) (details : list TransactionDetail.t)
    : list transaction_detail.row :=
  match details with
  | [] => []
  | d :: rest =>
      transaction_detail.mk (pretty seq) tid (TransactionDetail.ProductId d)
        (TransactionDetail.Price d) :: lineRows tid (S seq) rest
  end.

(** The requests the second loop of [Create] issues for [details]. *)
Definition lineEvents (details : list TransactionDetail.t) : list Event :=
  details ≫= (fun _ => [EvInsertTransactionDetail; EvSelectPrice]).

(** The line [o] of the returned order goes with the stored row [r]. *)
Definition returnedLine (catalog : gmap string mst_product.row)
    (r : transaction_detail.row) (o : TransactionDetail.t) : Prop :=
  TransactionDetail.TransactionDetailId o = transaction_detail.transaction_detail_id r /\
  TransactionDetail.TransactionsId o = transaction_detail.transaction_id r /\
  TransactionDetail.ProductId o = transaction_detail.id_product r /\
  mst_product.price <$> catalog !! transaction_detail.id_product r
    = Some (TransactionDetail.Price o).

(** [n] is the nominal value the catalog has for the product of line [d]. *)
Definition catalogNominal (catalog : gmap string mst_product.row)
    (d : TransactionDetail.t) (n : float64) : Prop :=
  mst_product.nominal <$> catalog !! TransactionDetail.ProductId d = Some n.

(** [totalNominal] as the first loop accumulates it. *)
Definition total (noms : list float64) : float64 :=
  fold_left PrimFloat.add noms f64_zero.

(** The next [k] requests on the connection are served. *)
Definition served (faulty : nat -> bool) (c : Conn) (k : nat) : Prop :=
  forall i, i < k -> faulty (length (log c) + i) = false.

Definition keeps_committed {A} (m : M A) : Prop :=
  forall c, committed (m c).2 = committed c.

(** A piece of the atomic unit: it never touches the committed tables, and
    when it fails it has rolled the unit back. *)
Definition in_unit {A} (m : M A) : Prop :=
  forall c r c', m c = (r, c') ->
    committed c' = committed c /\
    (forall e, r = Err e -> tx c' = None /\ last (log c') = Some EvRollback).

(** What a failing [Create] leaves behind once the unit has begun. *)
Definition fails_clean {A} (m : M A) : Prop :=
  forall c e c', m c = (Err e, c') ->
    committed c' = committed c /\ tx c' = None /\
    (last (log c') = Some EvRollback \/ last (log c') = Some EvCommit).

(** [Create] up to the comparison of the balance with [totalNominal]:
    the unit is open on the committed tables and nothing is written. *)
Definition afterReads (c : Conn) (n : nat) : Conn :=
  mkConn (committed c) (Some (committed c)) (sequence c)
    (log c ++ [EvBegin; EvSelectBalance] ++ replicate n EvSelectNominal).

End CreateSpec.

(** ** Vocabulary for the properties of the read paths *)

Section ReadSpec.

Import custom joined.

(** The rows of [rows] that belong to order [id], in scan order. *)
Definition rowsOf (id : string) (rows : list row) : list row :=
  filter (fun r => t_transaction_id r = id) rows.

(** The aggregate of an order whose first scanned row is [r] and whose
    further rows are [rest]. *)
Definition aggregate (r : row) (rest : list row) : TransactionsReq.t :=
  TransactionsReq.mk (t_transaction_id r) (t_customer_name r)
    (t_destination_number r) (t_transaction_date r)
    (scanUser r) (scanMerchant r) (GetAll_detail <$> r :: rest).

Definition line (order : string) (date : time.Time) (detail : string) : row :=
  joined.mk order "Budi" "081234" date "u1" "budi" "merchant"
    "m1" "Toko Maju" "Jl. Melati 1" detail order
    "p1" "telkomsel" 5000%float 6000%float.

(** What the query of [GetAll] returns for two orders of two lines each,
    the later order first. *)
Definition twoOrders : list row :=
  [ line "o1" (time.mkTime 2024 2 2) "d1"; line "o1" (time.mkTime 2024 2 2) "d2";
    line "o2" (time.mkTime 2024 1 1) "d3"; line "o2" (time.mkTime 2024 1 1) "d4" ].

(** What the query of [GetById] returns for an order of two lines. *)
Definition oneOrder : list row :=
  [ line "o1" (time.mkTime 2024 2 2) "d1"; line "o1" (time.mkTime 2024 2 2) "d2" ].

(** The rows the loop of [GetById] scans: the first, the third, ... *)
Fixpoint scanned (rows : list row) : list row :=
  match rows with
  | [] => []
  | r :: rows =>
      r :: match rows with
           | [] => []
           | _ :: rows => scanned rows
           end
  end.

End ReadSpec.

(** ** A small shop, for the concrete runs *)

Section Shop.

Import entity.

(** Merchant [m1] holds 10000; product [p1] has face value 5000 and sells
    at 6000. *)
Definition shop : Tables :=
  mkTables {[ "m1" := mst_merchant.mk "Toko Maju" "Jl. Melati 1" "u1" 10000%float ]}
           {[ "p1" := mst_product.mk "telkomsel" 5000%float 6000%float ]}
           [] [].

Definition idle (t : Tables) : Conn := mkConn t None 0 [].

(** A store that serves every request. *)
Definition reliable : nat -> bool := fun _ => false.

(** A store that refuses request number [k] on the connection. *)
Definition refusing (k : nat) : nat -> bool := fun n => (n =? k)%nat.

(** An order of [n] units of [p1], each line claiming the price 1. *)
Definition orderOf (date : string) (n : nat) : Transactions.t :=
  Transactions.mk "" "m1" "u1" "Budi" "081234" date
    (replicate n (TransactionDetail.mk "" "" "p1" 1%float)).

End Shop.

(** ** Vocabulary for further properties *)

Section DateSpec.

(** A date of the calendar whose year has at most four digits (is below
    10000). *)
Definition calendarDate (t : time.Time) : Prop :=
  time.year t < 100 * 100 /\
  1 <= time.month t <= 12 /\
  1 <= time.day t <= time.daysIn (time.month t) (time.year t).

End DateSpec.

(** ** Configuration (package [config]) and the start of the server

    [strconv.Atoi] as the Go library defines it on a 64-bit platform: an
    optional sign and decimal digits; a syntax error gives 0, a value out
    of range is clamped to the nearest [int]. *)

Module strconv.

Inductive NumError := ErrSyntax | ErrRange.

Definition maxInt : Z := 9223372036854775807.
Definition minInt : Z := -9223372036854775808.

Fixpoint digits (s : string) (n : Z) : option Z :=
  match s with
  | EmptyString => Some n
  | String a rest =>
      if time.isDigit a then digits rest (n * 10 + Z.of_nat (time.digit a))%Z
      else None
  end.

Definition unsigned (s : string) : bool * string :=
  match s with
  | String "-"%char rest => (true, rest)
  | String "+"%char rest => (false, rest)
  | _ => (false, s)
  end.

Definition Atoi (s : string) : Z * option NumError :=
  let '(neg, body) := unsigned s in
  match body with
  | EmptyString => (0%Z, Some ErrSyntax)
  | _ =>
      match digits body 0 with
      | None => (0%Z, Some ErrSyntax)
      | Some n =>
          let v := if neg then (- n)%Z else n in
          if (maxInt <? v)%Z then (maxInt, Some ErrRange)
          else if (v <? minInt)%Z then (minInt, Some ErrRange)
          else (v, None)
      end
  end.

End strconv.

Module config.

Record DbConfig := mkDb {
  Host : string;
  Port : string;
  User : string;
  Password : string;
  Name : string;
  Driver : string
}.

Record ApiConfig := mkApi { ApiPort : string }.

Inductive SigningMethod := NoSigningMethod | SigningMethodHS256.

(** [JwtSignatureKy] holds the bytes of a string; [JwtExpiresTime] is a
    [time.Duration], a signed 64-bit count of nanoseconds. *)
Record TokenConfig := mkToken {
  IssuerName : string;
  JwtSignatureKy : string;
  JwtSigningMethod : SigningMethod;
  JwtExpiresTime : Z
}.

Record Config := mkConfig {
  Db : DbConfig;
  Api : ApiConfig;
  Token : TokenConfig
}.

(** [Config{}] *)
Definition zero : Config :=
  mkConfig (mkDb "" "" "" "" "" "") (mkApi "") (mkToken "" "" NoSigningMethod 0).

(** What [readConfigEnvironment] sees of the process: the [.env] file as
    [godotenv] reads it (a message when it cannot) and the environment
    variables. *)
Record Process := mkProcess {
  dotenv : string + gmap string string;
  environ : gmap string string
}.

Inductive Error :=
| MissingEnvFile (message : string)
| MissingRequiredEnvironment.

(** [godotenv.Load()]: the variables of the file that the environment does
    not have yet are set; those it has keep their value. *)
Definition godotenv_Load (p : Process) : option string * Process :=
  match dotenv p with
  | inl message => (Some message, p)
  | inr file => (None, mkProcess (dotenv p) (environ p ∪ file))
  end.

(** [os.Getenv(key)] *)
Definition Getenv (p : Process) (key : string) : string :=
  default "" (environ p !! key).

(** Signed 64-bit arithmetic wraps around. *)
Definition wrap64 (z : Z) : Z :=
  ((z + 9223372036854775808) mod 18446744073709551616 - 9223372036854775808)%Z.

(** [time.Minute], in nanoseconds. *)
Definition Minute : Z := 60000000000.

Definition isEmpty (s : string) : bool :=
  match s with
  | EmptyString => true
  | String _ _ => false
  end.

(** [func (c *Config) readConfigEnvironment() error]: the configuration
    [c] points to after the call, and the error. *)
Definition readConfigEnvironment (c : Config) (p : Process)
    : (Config * option Error) * Process :=
  match godotenv_Load p with
  | (Some message, p) => ((c, Some (MissingEnvFile message)), p)
  | (None, p) =>
      let db := mkDb (Getenv p "DB_HOST") (Getenv p "DB_PORT") (Getenv p "DB_USER")
                  (Getenv p "DB_PASSWORD") (Getenv p "DB_NAME") (Getenv p "DB_DRIVER") in
      let api := mkApi (Getenv p "API_PORT") in
      let tokenExpire := fst (strconv.Atoi (Getenv p "TOKEN_EXPIRE")) in
      let token := mkToken (Getenv p "TOKEN_ISSUE") (Getenv p "TOKEN_SECRET")
                     SigningMethodHS256 (wrap64 (tokenExpire * Minute)) in
      let c := mkConfig db api token in
      if isEmpty (Host db) || isEmpty (Port db) || isEmpty (User db)
         || isEmpty (Name db) || isEmpty (Driver db) || isEmpty (ApiPort api)
         || isEmpty (IssuerName token) || (JwtExpiresTime token <? 0)%Z
         || (String.length (JwtSignatureKy token) =? 0)%nat
      then ((c, Some MissingRequiredEnvironment), p)
      else ((c, None), p)
  end.

(** [func NewConfig()], which returns a pointer to the configuration and
    an error: [None] is the nil pointer. *)
Definition NewConfig (p : Process) : (option Config * option Error) * Process :=
  match readConfigEnvironment zero p with
  | ((_, Some err), p) => ((None, Some err), p)
  | ((cfg, None), p) => ((Some cfg, None), p)
  end.

End config.

(** A Go call either returns or panics. *)
Inductive Outcome (A : Type) :=
| Returns (a : A)
| Panics.
Arguments Returns {A} a.
Arguments Panics {A}.

(** What [NewServer] builds its [Server] from: the [*sql.DB] handle that
    all repositories share ([None] is the nil handle, otherwise the driver
    and the data source name it was opened with), the token configuration
    of the JWT service, and the address to listen on. *)
Record Server := mkServer {
  db : option (string * string);
  jwtService : config.TokenConfig;
  host : string
}.

Section ServerStart.

(** The drivers registered with [database/sql] in the program. *)
Variable registered : string -> bool.

(** [sql.Open(driverName, dataSourceName)]: no connection is made; an
    unknown driver gives an error and a nil handle. *)
Definition sql_Open (driverName dataSourceName : string) : option (string * string) :=
  if registered driverName then Some (driverName, dataSourceName) else None.

(** [func NewServer() *Server].  The error of [config.NewConfig] is
    dropped and the configuration is dereferenced; the error of [sql.Open]
    is only printed. *)
Definition NewServer (p : config.Process) : Outcome Server :=
  match fst (fst (config.NewConfig p)) with
  | None => Panics
  | Some cfg =>
      let dsn :=
        "host=" +:+ config.Host (config.Db cfg)
        +:+ " port=" +:+ config.Port (config.Db cfg)
        +:+ " user=" +:+ config.User (config.Db cfg)
        +:+ " password=" +:+ config.Password (config.Db cfg)
        +:+ " dbname=" +:+ config.Name (config.Db cfg)
        +:+ " sslmode=disable" in
      let db := sql_Open (config.Driver (config.Db cfg)) dsn in
      Returns (mkServer db (config.Token cfg)
                 (":" +:+ config.ApiPort (config.Api cfg)))
  end.

End ServerStart.

Section ConfigSpec.

(** The variables [readConfigEnvironment] insists on. *)
Definition requiredVariables : list string :=
  ["DB_HOST"; "DB_PORT"; "DB_USER"; "DB_NAME"; "DB_DRIVER"; "API_PORT";
   "TOKEN_ISSUE"; "TOKEN_SECRET"].

(** The largest number of minutes whose nanoseconds fit a [time.Duration]. *)
Definition maxMinutes : Z := 153722867.

(** A process without variables of its own whose [.env] sets what the
    server needs and [expire] as TOKEN_EXPIRE. *)
Definition processWith (expire : string) : config.Process :=
  config.mkProcess
    (inr (list_to_map
            [("DB_HOST", "localhost"); ("DB_PORT", "5432"); ("DB_USER", "pulsa");
             ("DB_NAME", "pulsa"); ("DB_DRIVER", "postgres"); ("API_PORT", "8080");
             ("TOKEN_ISSUE", "server-pulsa"); ("TOKEN_SECRET", "secret");
             ("TOKEN_EXPIRE", expire)]))
    ∅.

End ConfigSpec.

(** * Properties *)

(** ** Dates *)

Example parse_ok : time.Parse "15-01-2024" = Some (time.mkTime 2024 1 15).
Proof. reflexivity. Qed.

Example parse_iso_rejected : time.Parse "2024-01-15" = None.
Proof. reflexivity. Qed.

Example parse_feb29 :
  time.Parse "29-02-2024" = Some (time.mkTime 2024 2 29) /\
  time.Parse "29-02-2023" = None.
Proof. split; reflexivity. Qed.

Example format_ok : time.Format (time.mkTime 2024 1 15) = "15-01-2024".
Proof. reflexivity. Qed.

(** ** [Create] *)

Section CreateFacts.

Variable faulty : nat -> bool.

Import entity.

Lemma bind_Ok {A B} (m : M A) (k : A -> M B) c b c' :
  bind m k c = (Ok b, c') ->
  exists a c1, m c = (Ok a, c1) /\ k a c1 = (Ok b, c').
Proof.
  unfold bind. destruct (m c) as [[a|e] c1]; [eauto | discriminate].
Qed.

Lemma bind_Err {A B} (m : M A) (k : A -> M B) c e c' :
  bind m k c = (Err e, c') ->
  m c = (Err e, c') \/ exists a c1, m c = (Ok a, c1) /\ k a c1 = (Err e, c').
Proof.
  unfold bind. destruct (m c) as [[a|e1] c1]; [eauto | intros [= -> ->]; auto].
Qed.

Lemma orRollback_Ok {A} (m : M A) c a c' :
  orRollback m c = (Ok a, c') -> m c = (Ok a, c').
Proof.
  unfold orRollback. destruct (m c) as [[a1|e] c1]; [done | discriminate].
Qed.

Lemma orRollback_Err {A} (m : M A) c e c' :
  orRollback m c = (Err e, c') ->
  exists c1, m c = (Err e, c1) /\ c' = with_tx None (record EvRollback c1).
Proof.
  unfold orRollback. destruct (m c) as [[a1|e1] c1]; [discriminate |].
  intros [= -> <-]. eauto.
Qed.

Lemma in_unit_ret {A} (a : A) : in_unit (ret a).
Proof. intros c r c' [= <- <-]. split; [done | discriminate]. Qed.

Lemma in_unit_bind {A B} (m : M A) (k : A -> M B) :
  in_unit m -> (forall a, in_unit (k a)) -> in_unit (bind m k).
Proof.
  intros Hm Hk c r c'. unfold bind.
  destruct (m c) as [[a|e] c1] eqn:E; destruct (Hm _ _ _ E) as [Hc He].
  - intros Hka. destruct (Hk _ _ _ _ Hka) as [Hc' He']. split; [congruence | done].
  - intros [= <- <-]. split; [done |]. intros e' [= <-]. eauto.
Qed.

Lemma in_unit_orRollback {A} (m : M A) :
  keeps_committed m -> in_unit (orRollback m).
Proof.
  intros Hm c r c'. unfold orRollback. specialize (Hm c).
  destruct (m c) as [[a|e] c1]; intros [= <- <-]; simpl in *.
  - split; [done | discriminate].
  - split; [done |]. intros _ _. split; [done |]. by rewrite last_snoc.
Qed.

Lemma keeps_tx_query {A} ev (read : Tables -> Res A) :
  keeps_committed (tx_query faulty ev read).
Proof. intros c. unfold tx_query. by repeat case_match. Qed.

Lemma keeps_tx_insert ev ins : keeps_committed (tx_insert faulty ev ins).
Proof. intros c. unfold tx_insert. by repeat case_match. Qed.

Lemma keeps_tx_update {A} ev (upd : Tables -> Res (A * Tables)) :
  keeps_committed (tx_update faulty ev upd).
Proof. intros c. unfold tx_update. by repeat case_match. Qed.

Lemma in_unit_sumNominal details acc : in_unit (sumNominal faulty details acc).
Proof.
  revert acc. induction details as [|d rest IH]; intros acc; simpl.
  - apply in_unit_ret.
  - apply in_unit_bind; [| intros a; apply IH].
    apply in_unit_orRollback, keeps_tx_query.
Qed.

Lemma in_unit_insertDetails tid details : in_unit (insertDetails faulty tid details).
Proof.
  induction details as [|d rest IH]; simpl.
  - apply in_unit_ret.
  - apply in_unit_bind; [apply in_unit_orRollback, keeps_tx_insert |]. intros did.
    apply in_unit_bind; [apply in_unit_orRollback, keeps_tx_query |]. intros price.
    apply in_unit_bind; [apply IH |]. intros rest'. apply in_unit_ret.
Qed.

Lemma in_unit_insufficient {A} e :
  in_unit (tx_Rollback ;; @raise A e).
Proof.
  intros c r c' [= <- <-]. simpl. split; [done |]. intros _ _.
  split; [done |]. by rewrite last_snoc.
Qed.


Lemma in_unit_fails_clean {A} (m : M A) : in_unit m -> fails_clean m.
Proof.
  intros Hm c e c' E. destruct (Hm _ _ _ E) as [Hc He].
  destruct (He e eq_refl). auto.
Qed.

Lemma fails_clean_bind {A B} (m : M A) (k : A -> M B) :
  in_unit m -> (forall a, fails_clean (k a)) -> fails_clean (bind m k).
Proof.
  intros Hm Hk c e c' E. apply bind_Err in E as [E | (a & c1 & E & Ek)].
  - by eapply in_unit_fails_clean.
  - destruct (Hm _ _ _ E) as [Hc _]. destruct (Hk _ _ _ _ Ek) as (? & ? & ?).
    split; [congruence | done].
Qed.

Lemma fails_clean_commit {A} (a : A) : fails_clean (tx_Commit faulty ;; ret a).
Proof.
  intros c e c'. unfold bind, tx_Commit, ret.
  destruct (faulty (length (log c))); [| destruct (tx c) eqn:Htx];
    try discriminate; intros [= <- <-]; simpl; rewrite last_snoc; auto.
Qed.

(** *** Requests that succeed *)

Lemma tx_query_Ok {A} ev (read : Tables -> Res A) c a c' :
  tx_query faulty ev read c = (Ok a, c') ->
  exists w, tx c = Some w /\ read w = Ok a /\ c' = record ev c.
Proof.
  unfold tx_query. destruct (faulty _); [discriminate |].
  destruct (tx c) as [w|]; [| discriminate]. intros [= E <-]. eauto.
Qed.

Lemma tx_insert_Ok ev ins c id c' :
  tx_insert faulty ev ins c = (Ok id, c') ->
  exists w, tx c = Some w /\ id = pretty (sequence c) /\
    c' = mkConn (committed c) (Some (ins id w)) (S (sequence c)) (log c ++ [ev]).
Proof.
  unfold tx_insert. destruct (faulty _); [discriminate |].
  destruct (tx c) as [w|]; [| discriminate]. intros [= <- <-]. eauto.
Qed.

Lemma tx_update_Ok {A} ev (upd : Tables -> Res (A * Tables)) c a c' :
  tx_update faulty ev upd c = (Ok a, c') ->
  exists w w', tx c = Some w /\ upd w = Ok (a, w') /\
    c' = with_tx (Some w') (record ev c).
Proof.
  unfold tx_update. destruct (faulty _); [discriminate |].
  destruct (tx c) as [w|]; [| discriminate].
  destruct (upd w) as [[a' w']|] eqn:E; [| discriminate].
  intros [= <- <-]. eauto.
Qed.

Lemma sumNominal_Ok details acc c t c' w :
  sumNominal faulty details acc c = (Ok t, c') ->
  tx c = Some w ->
  exists noms,
    Forall2 (catalogNominal (products w)) details noms /\
    t = fold_left PrimFloat.add noms acc /\
    c' = mkConn (committed c) (Some w) (sequence c)
           (log c ++ replicate (length details) EvSelectNominal).
Proof.
  revert acc c. induction details as [|d rest IH]; intros acc c; simpl.
  - intros [= <- <-] Hw. exists []. split; [constructor |]. split; [done |].
    rewrite app_nil_r, <- Hw. by destruct c.
  - intros E Hw. apply bind_Ok in E as (n & c1 & E & Ek).
    apply orRollback_Ok, tx_query_Ok in E as (w' & Hw' & Hn & ->).
    assert (w' = w) as -> by congruence.
    apply (IH _ _ Ek) in Hw as (noms & HF & -> & ->).
    destruct (products w !! TransactionDetail.ProductId d) as [p|] eqn:Hp;
      [| discriminate]. injection Hn as <-.
    exists (mst_product.nominal p :: noms). split; [| split].
    + constructor; [| done]. unfold catalogNominal. by rewrite Hp.
    + done.
    + simpl. by rewrite <- app_assoc.
Qed.

Lemma insertDetails_Ok tid details c out c' w :
  insertDetails faulty tid details c = (Ok out, c') ->
  tx c = Some w ->
  Forall2 (returnedLine (products w)) (lineRows tid (sequence c) details) out /\
  c' = mkConn (committed c)
         (Some (mkTables (merchants w) (products w) (orders w)
                  (order_lines w ++ lineRows tid (sequence c) details)))
         (sequence c + length details)
         (log c ++ lineEvents details).
Proof.
  revert c out w. induction details as [|d rest IH]; intros c out w; simpl.
  - intros [= <- <-] Hw. split; [constructor |].
    rewrite !app_nil_r, Nat.add_0_r. destruct c, w; simpl in *. by rewrite Hw.
  - intros E Hw. apply bind_Ok in E as (did & c1 & E & Ek).
    apply orRollback_Ok, tx_insert_Ok in E as (w' & Hw' & -> & ->).
    assert (w' = w) as -> by congruence.
    apply bind_Ok in Ek as (price & c2 & E & Ek).
    apply orRollback_Ok, tx_query_Ok in E as (w1 & Hw1 & Hp & ->).
    simpl in Hw1. injection Hw1 as <-. simpl in Hp.
    apply bind_Ok in Ek as (rest' & c3 & E & Ek). injection Ek as <- <-.
    eapply IH in E; [| reflexivity]. destruct E as [HF ->]. simpl in *.
    split.
    + constructor; [| done]. repeat split; simpl.
      destruct (products w !! TransactionDetail.ProductId d); [| discriminate].
      by injection Hp as <-.
    + f_equal; [by rewrite <- app_assoc | lia | by rewrite <- !app_assoc].
Qed.


Lemma Create_Ok payload c p' c' :
  Create faulty payload c = (Ok p', c') ->
  let tid := pretty (sequence c) in
  let details := Transactions.TransactionDetail payload in
  exists parsedDate m noms out,
    time.Parse (Transactions.TransactionDate payload) = Some parsedDate /\
    merchants (committed c) !! Transactions.MerchantId payload = Some m /\
    Forall2 (catalogNominal (products (committed c))) details noms /\
    (mst_merchant.balance m <? total noms)%float = false /\
    Forall2 (returnedLine (products (committed c)))
      (lineRows tid (S (sequence c)) details) out /\
    p' = Transactions.mk tid (Transactions.MerchantId payload)
           (Transactions.UserId payload) (Transactions.CustomerName payload)
           (Transactions.DestinationNumber payload) (time.Format parsedDate) out /\
    c' = mkConn
           (mkTables
              (<[Transactions.MerchantId payload := debit (total noms) m]>
                 (merchants (committed c)))
              (products (committed c))
              (orders (committed c) ++
                 [transactions.mk tid (Transactions.MerchantId payload)
                    (Transactions.UserId payload) (Transactions.CustomerName payload)
                    (Transactions.DestinationNumber payload) parsedDate])
              (order_lines (committed c) ++ lineRows tid (S (sequence c)) details))
           None
           (S (sequence c) + length details)
           (log c ++ [EvBegin; EvSelectBalance]
              ++ replicate (length details) EvSelectNominal
              ++ [EvInsertTransaction] ++ lineEvents details
              ++ [EvUpdateBalance; EvCommit]).
Proof.
  intros E tid details. unfold Create in E.
  destruct (time.Parse _) as [parsedDate|]; [| discriminate].
  apply bind_Ok in E as ([] & c1 & E & Ek).
  unfold db_Begin in E. destruct (faulty _); [discriminate |]. injection E as <-.
  apply bind_Ok in Ek as (currentBalance & c2 & E & Ek).
  apply orRollback_Ok, tx_query_Ok in E as (w & Hw & Hm & ->).
  simpl in Hw. injection Hw as <-.
  destruct (merchants (committed c) !! _) as [m|] eqn:Hmid; [| discriminate].
  injection Hm as <-.
  apply bind_Ok in Ek as (totalNominal & c3 & E & Ek).
  eapply sumNominal_Ok in E; [| reflexivity]. destruct E as (noms & Hnoms & -> & ->).
  fold (total noms) in Ek. simpl in Ek.
  destruct (mst_merchant.balance m <? total noms)%float eqn:Hlt; [discriminate |].
  apply bind_Ok in Ek as (transactionId & c4 & E & Ek).
  apply orRollback_Ok, tx_insert_Ok in E as (w & Hw & -> & ->).
  simpl in Hw. injection Hw as <-. simpl in Ek.
  apply bind_Ok in Ek as (out & c5 & E & Ek).
  eapply insertDetails_Ok in E; [| reflexivity]. destruct E as [Hout ->].
  simpl in Hout, Ek.
  apply bind_Ok in Ek as (newBalance & c6 & E & Ek).
  apply orRollback_Ok, tx_update_Ok in E as (w & w' & Hw & Hupd & ->).
  simpl in Hw. injection Hw as <-. simpl in Hupd. rewrite Hmid in Hupd.
  injection Hupd as <- <-.
  apply bind_Ok in Ek as ([] & c7 & E & Ek). injection Ek as <- <-.
  unfold tx_Commit in E. simpl in E. destruct (faulty _); [discriminate |].
  injection E as <-.
  exists parsedDate, m, noms, out. repeat split; try done.
  f_equal. rewrite <- !app_assoc. done.
Qed.

(** *** Requests that are served *)

Lemma served_now c k : served faulty c (S k) -> faulty (length (log c)) = false.
Proof. intros H. rewrite <- (Nat.add_0_r (length _)). apply H. lia. Qed.

Lemma served_later c c1 (l : list Event) n k :
  served faulty c (n + k) -> log c1 = log c ++ l -> length l = n ->
  served faulty c1 k.
Proof.
  intros H Hl Hn i Hi. rewrite Hl, length_app, Hn, <- Nat.add_assoc. apply H. lia.
Qed.

Lemma bind_run {A B} (m : M A) (k : A -> M B) c a c1 :
  m c = (Ok a, c1) -> bind m k c = k a c1.
Proof. unfold bind. by intros ->. Qed.

Lemma orRollback_run {A} (m : M A) c a c1 :
  m c = (Ok a, c1) -> orRollback m c = (Ok a, c1).
Proof. unfold orRollback. by intros ->. Qed.

Lemma tx_query_run {A} ev (read : Tables -> Res A) c w :
  faulty (length (log c)) = false -> tx c = Some w ->
  tx_query faulty ev read c = (read w, record ev c).
Proof. unfold tx_query. by intros -> ->. Qed.

Lemma tx_insert_run ev ins c w :
  faulty (length (log c)) = false -> tx c = Some w ->
  tx_insert faulty ev ins c =
    (Ok (pretty (sequence c)),
     mkConn (committed c) (Some (ins (pretty (sequence c)) w)) (S (sequence c))
       (log c ++ [ev])).
Proof. unfold tx_insert. by intros -> ->. Qed.

Lemma sumNominal_run details noms acc c w :
  tx c = Some w ->
  served faulty c (length details) ->
  Forall2 (catalogNominal (products w)) details noms ->
  sumNominal faulty details acc c =
    (Ok (fold_left PrimFloat.add noms acc),
     mkConn (committed c) (Some w) (sequence c)
       (log c ++ replicate (length details) EvSelectNominal)).
Proof.
  intros Hw Hs HF. revert acc c Hw Hs.
  induction HF as [|d n rest noms Hn HF IH]; intros acc c Hw Hs; simpl.
  - unfold ret. rewrite app_nil_r, <- Hw. by destruct c.
  - unfold catalogNominal in Hn.
    destruct (products w !! TransactionDetail.ProductId d) as [p|] eqn:Hp;
      [| discriminate]. injection Hn as <-.
    erewrite bind_run; cycle 1.
    { apply orRollback_run. unfold select_nominal.
      rewrite (tx_query_run _ _ _ w); [| by eapply served_now | done].
      by rewrite Hp. }
    rewrite IH; [| done |].
    + simpl. by rewrite <- app_assoc.
    + eapply (served_later c _ [_] 1); [exact Hs | done | done].
Qed.

Lemma insertDetails_run tid details noms c w :
  tx c = Some w ->
  served faulty c (2 * length details) ->
  Forall2 (catalogNominal (products w)) details noms ->
  exists out c', insertDetails faulty tid details c = (Ok out, c').
Proof.
  intros Hw Hs HF. revert c w Hw Hs HF.
  induction details as [|d rest IH] in noms |- *; intros c w Hw Hs HF; simpl.
  - by eexists _, _.
  - inversion HF as [|? n ? noms' Hn HF']; subst. unfold catalogNominal in Hn.
    destruct (products w !! TransactionDetail.ProductId d) as [p|] eqn:Hp;
      [| discriminate].
    simpl in Hs. rewrite Nat.add_0_r, Nat.add_succ_r in Hs.
    erewrite bind_run; cycle 1.
    { apply orRollback_run. unfold insertTransactionDetail.
      apply tx_insert_run; [by eapply served_now | done]. }
    erewrite bind_run; cycle 1.
    { apply orRollback_run. unfold select_price, tx_query. simpl.
      rewrite length_app. simpl. rewrite (Hs 1) by lia. by rewrite Hp. }
    lazymatch goal with
    | |- context [bind (insertDetails _ _ _) _ ?c1] =>
        destruct (IH noms' c1 _ eq_refl) as (out & c' & E); [| exact HF' |]
    end.
    + eapply (served_later c _ [_; _] 2); [| simpl; by rewrite <- app_assoc | done].
      simpl. rewrite Nat.add_0_r. exact Hs.
    + erewrite bind_run; [| exact E]. by eexists _, _.
Qed.


Lemma length_lineEvents details : length (lineEvents details) = 2 * length details.
Proof. induction details; simpl in *; lia. Qed.

Lemma served_at c k e :
  served faulty c k -> length (log c) <= e < length (log c) + k -> faulty e = false.
Proof.
  intros Hs He. replace e with (length (log c) + (e - length (log c))) by lia.
  apply Hs. lia.
Qed.

Ltac norm_length :=
  repeat first [ rewrite length_app | rewrite length_replicate
               | rewrite length_lineEvents | progress cbn [length] ].

Lemma db_Begin_run c :
  faulty (length (log c)) = false ->
  db_Begin faulty c = (Ok tt, with_tx (Some (committed c)) (record EvBegin c)).
Proof. unfold db_Begin. by intros ->. Qed.

Lemma select_balance_run id m c w :
  faulty (length (log c)) = false -> tx c = Some w ->
  merchants w !! id = Some m ->
  select_balance faulty id c = (Ok (mst_merchant.balance m), record EvSelectBalance c).
Proof.
  intros Hf Hw Hm. unfold select_balance. rewrite (tx_query_run _ _ _ w Hf Hw).
  by rewrite Hm.
Qed.

Lemma Create_reads payload m noms c (k : float64 -> float64 -> M Transactions.t) :
  merchants (committed c) !! Transactions.MerchantId payload = Some m ->
  Forall2 (catalogNominal (products (committed c)))
    (Transactions.TransactionDetail payload) noms ->
  served faulty c (2 + length (Transactions.TransactionDetail payload)) ->
  (db_Begin faulty ;;
   currentBalance <- orRollback (select_balance faulty (Transactions.MerchantId payload)) ;;
   totalNominal <- sumNominal faulty (Transactions.TransactionDetail payload) f64_zero ;;
   k currentBalance totalNominal) c
  = k (mst_merchant.balance m) (total noms)
      (afterReads c (length (Transactions.TransactionDetail payload))).
Proof.
  intros Hm Hnoms Hs.
  rewrite (bind_run _ _ _ _ _ (db_Begin_run c (served_now _ _ Hs))).
  erewrite bind_run; cycle 1.
  { apply orRollback_run. eapply select_balance_run; [| reflexivity | exact Hm].
    simpl. rewrite length_app. simpl. apply Hs. lia. }
  erewrite bind_run; cycle 1.
  { eapply sumNominal_run; [reflexivity | | exact Hnoms].
    eapply (served_later c _ [_; _] 2); [exact Hs | | done].
    simpl. by rewrite <- app_assoc. }
  unfold afterReads, total. simpl. by rewrite <- !app_assoc.
Qed.

Lemma Create_runs payload parsedDate m noms c :
  time.Parse (Transactions.TransactionDate payload) = Some parsedDate ->
  merchants (committed c) !! Transactions.MerchantId payload = Some m ->
  Forall2 (catalogNominal (products (committed c)))
    (Transactions.TransactionDetail payload) noms ->
  (mst_merchant.balance m <? total noms)%float = false ->
  served faulty c (5 + 3 * length (Transactions.TransactionDetail payload)) ->
  exists p' c', Create faulty payload c = (Ok p', c').
Proof.
  intros HP Hm Hnoms Hlt Hs. unfold Create. rewrite HP.
  set (n := length (Transactions.TransactionDetail payload)) in *.
  rewrite (Create_reads payload m noms c); [| done | done |];
    [| intros i Hi; apply Hs; fold n in Hi; lia].
  rewrite Hlt. fold n.
  erewrite bind_run; cycle 1.
  { apply orRollback_run. unfold insertTransaction.
    apply tx_insert_run; [| reflexivity].
    apply (served_at c _ _ Hs). simpl. norm_length. lia. }
  lazymatch goal with
  | |- context [bind (insertDetails _ ?tid ?ds) _ ?c1] =>
      destruct (insertDetails_run tid ds noms c1 _ eq_refl) as (out & c' & E);
        [| exact Hnoms |]
  end.
  { intros i Hi. fold n in Hi. apply (served_at c _ _ Hs). simpl. norm_length. lia. }
  rewrite (bind_run _ _ _ _ _ E).
  eapply insertDetails_Ok in E; [| reflexivity]. destruct E as [_ ->].
  erewrite bind_run; cycle 1.
  { apply orRollback_run. unfold updateMerchantBalance, tx_update. simpl.
    rewrite Hm.
    rewrite (served_at c _ _ Hs); [reflexivity |]. norm_length. fold n. lia. }
  erewrite bind_run; cycle 1.
  { unfold tx_Commit. simpl.
    rewrite (served_at c _ _ Hs); [reflexivity |]. norm_length. fold n. lia. }
  by eexists _, _.
Qed.

End CreateFacts.

(** *** Arithmetic of [float64] used below *)

Lemma f64_sub_zero (x : float64) : (x - 0)%float = x.
Proof.
  apply Prim2SF_inj. rewrite sub_spec.
  change (Prim2SF 0%float) with (S754_zero false).
  destruct (Prim2SF x) as [[]| [] | | s m e]; reflexivity.
Qed.

Lemma f64_nonneg_not_lt_zero (x : float64) :
  (0 <=? x)%float = true -> (x <? 0)%float = false.
Proof.
  rewrite leb_spec, ltb_spec.
  change (Prim2SF 0%float) with (S754_zero false).
  destruct (Prim2SF x) as [[]| [] | | [] m e]; cbn; congruence.
Qed.

Lemma debit_zero m : debit 0%float m = m.
Proof. destruct m. unfold debit. simpl. by rewrite f64_sub_zero. Qed.

Lemma lineRows_lookup tid seq details i :
  lineRows tid seq details !! i =
    (fun d => transaction_detail.mk (pretty (seq + i)) tid
                (entity.TransactionDetail.ProductId d)
                (entity.TransactionDetail.Price d)) <$> details !! i.
Proof.
  revert seq i. induction details as [|d rest IH]; intros seq [|i]; simpl; try done.
  - by rewrite Nat.add_0_r.
  - rewrite IH. by rewrite Nat.add_succ_r.
Qed.

Lemma returnedLine_ids catalog rows out :
  Forall2 (returnedLine catalog) rows out ->
  transaction_detail.transaction_detail_id <$> rows =
    entity.TransactionDetail.TransactionDetailId <$> out.
Proof.
  induction 1 as [|r o rows outs (H1 & _) _ IH]; [done |].
  rewrite !fmap_cons. by rewrite H1, IH.
Qed.

(** *** The claims about [Create] *)

Section CreateClaims.

Import entity.

Variable faulty : nat -> bool.

(** C6. A date string that [time.Parse] rejects at layout dd-mm-yyyy makes
    [Create] return the invalid-date error with the connection exactly as
    it was: nothing is logged, so no request (not even [Begin]) reached the
    store. *)
Theorem Create_invalid_date payload c :
  time.Parse (Transactions.TransactionDate payload) = None ->
  Create faulty payload c = (Err InvalidDateFormat, c).
Proof. intros HP. unfold Create. by rewrite HP. Qed.

(** C1. When the merchant row and every product of the order are read and
    the sum of the catalog nominal values exceeds the balance,
    [Create] fails with the insufficient-balance error carrying the sum
    and the balance, the unit is rolled back and the committed tables
    (orders, order lines, balances) are what they were. *)
Theorem Create_insufficient_balance payload parsedDate m noms c :
  time.Parse (Transactions.TransactionDate payload) = Some parsedDate ->
  merchants (committed c) !! Transactions.MerchantId payload = Some m ->
  Forall2 (catalogNominal (products (committed c)))
    (Transactions.TransactionDetail payload) noms ->
  served faulty c (2 + length (Transactions.TransactionDetail payload)) ->
  (mst_merchant.balance m <? total noms)%float = true ->
  exists c',
    Create faulty payload c =
      (Err (InsufficientBalance (total noms) (mst_merchant.balance m)), c') /\
    committed c' = committed c /\
    tx c' = None /\
    last (log c') = Some EvRollback.
Proof.
  intros HP Hm Hnoms Hs Hlt. unfold Create. rewrite HP.
  rewrite (Create_reads faulty payload m noms c _ Hm Hnoms Hs), Hlt.
  eexists. split; [reflexivity |]. simpl. split; [done |]. split; [done |].
  by rewrite last_snoc.
Qed.

(** C2. After an accepted order the merchant's balance is the balance
    before minus [totalNominal], the sum (accumulated from 0 in line
    order) of the catalog nominal values of the order's lines; no other
    merchant row changes. *)
Theorem Create_debits_total_nominal payload c p' c' :
  Create faulty payload c = (Ok p', c') ->
  exists m m' noms,
    merchants (committed c) !! Transactions.MerchantId payload = Some m /\
    Forall2 (catalogNominal (products (committed c)))
      (Transactions.TransactionDetail payload) noms /\
    merchants (committed c') !! Transactions.MerchantId payload = Some m' /\
    mst_merchant.balance m' =
      (mst_merchant.balance m - fold_left PrimFloat.add noms 0)%float /\
    forall id, id <> Transactions.MerchantId payload ->
      merchants (committed c') !! id = merchants (committed c) !! id.
Proof.
  intros E. apply Create_Ok in E as (d & m & noms & out & _ & Hm & Hnoms & _ & _ & _ & ->).
  exists m, (debit (total noms) m), noms. simpl.
  split; [done |]. split; [done |]. split; [by rewrite lookup_insert_eq |].
  split; [done |]. intros id Hid. by rewrite lookup_insert_ne.
Qed.

(** C3. Once the unit has begun, a failing [Create] leaves the committed
    tables as they were and no unit open; the last request it made is the
    rollback, unless it is the commit itself that the store refused. *)
Theorem Create_failure_rolls_back payload parsedDate c e c' :
  time.Parse (Transactions.TransactionDate payload) = Some parsedDate ->
  faulty (length (log c)) = false ->
  Create faulty payload c = (Err e, c') ->
  committed c' = committed c /\
  tx c' = None /\
  (last (log c') = Some EvRollback \/ last (log c') = Some EvCommit).
Proof.
  intros HP HB. unfold Create. rewrite HP. intros E.
  apply bind_Err in E as [E | ([] & c1 & E & Ek)];
    unfold db_Begin in E; rewrite HB in E; [discriminate |].
  injection E as <-. cbv beta in Ek.
  apply (fun H : fails_clean _ => H _ _ _ Ek).
  apply fails_clean_bind; [apply in_unit_orRollback, keeps_tx_query |].
  intros currentBalance.
  apply fails_clean_bind; [apply in_unit_sumNominal |]. intros totalNominal.
  destruct (currentBalance <? totalNominal)%float.
  { apply in_unit_fails_clean, in_unit_insufficient. }
  apply fails_clean_bind; [apply in_unit_orRollback, keeps_tx_insert |].
  intros transactionId.
  apply fails_clean_bind; [apply in_unit_insertDetails |]. intros details.
  apply fails_clean_bind; [apply in_unit_orRollback, keeps_tx_update |].
  intros newBalance. apply fails_clean_commit.
Qed.

(** C5. The order [Create] returns carries the generated order
    identifier and as many lines as the payload; line [i] carries its
    generated identifier, the order identifier, the product of line [i]
    of the payload and the price the catalog has for that product,
    whatever price the payload gave.  Exactly one header row and one row
    per line were added, under those identifiers. *)
Theorem Create_returns_priced_order payload c p' c' :
  Create faulty payload c = (Ok p', c') ->
  let tid := pretty (sequence c) in
  Transactions.TransactionsId p' = tid /\
  length (Transactions.TransactionDetail p') =
    length (Transactions.TransactionDetail payload) /\
  (forall i o, Transactions.TransactionDetail p' !! i = Some o ->
     exists d product,
       Transactions.TransactionDetail payload !! i = Some d /\
       products (committed c) !! TransactionDetail.ProductId d = Some product /\
       o = TransactionDetail.mk (pretty (S (sequence c) + i)) tid
             (TransactionDetail.ProductId d) (mst_product.price product)) /\
  (exists header,
     orders (committed c') = orders (committed c) ++ [header] /\
     transactions.transaction_id header = tid) /\
  (exists rows,
     order_lines (committed c') = order_lines (committed c) ++ rows /\
     transaction_detail.transaction_detail_id <$> rows =
       TransactionDetail.TransactionDetailId <$> Transactions.TransactionDetail p' /\
     Forall (fun r => transaction_detail.transaction_id r = tid) rows).
Proof.
  intros E tid.
  apply Create_Ok in E as (d & m & noms & out & _ & _ & _ & _ & Hout & -> & ->).
  fold tid in Hout. simpl.
  split; [done |]. split; [| split; [| split]].
  - apply Forall2_length in Hout. rewrite <- Hout. clear.
    generalize (S (sequence c)).
    induction (Transactions.TransactionDetail payload); intros; simpl; auto.
  - intros i o Ho.
    destruct (Forall2_lookup_r _ _ _ _ _ Hout Ho) as (r & Hr & H1 & H2 & H3 & H4).
    rewrite lineRows_lookup in Hr.
    destruct (Transactions.TransactionDetail payload !! i) as [d0|]; [| discriminate].
    injection Hr as <-. simpl in *.
    destruct (products (committed c) !! TransactionDetail.ProductId d0)
      as [product|] eqn:Hproduct; [| discriminate].
    exists d0, product. split; [done |]. split; [done |].
    injection H4 as H4. destruct o. simpl in *. congruence.
  - eexists. split; [reflexivity | done].
  - eexists. split; [reflexivity |]. split.
    + by eapply returnedLine_ids.
    + clear. generalize (S (sequence c)).
      induction (Transactions.TransactionDetail payload); intros; simpl; auto.
Qed.

(** C10. [Create] does not ask for at least one line: on an order with a
    valid date, no lines and a merchant whose balance is not negative,
    with every request served, it succeeds, adds one header row and no
    line row, and leaves every balance as it was. *)
Theorem Create_empty_order payload parsedDate m c :
  time.Parse (Transactions.TransactionDate payload) = Some parsedDate ->
  Transactions.TransactionDetail payload = [] ->
  merchants (committed c) !! Transactions.MerchantId payload = Some m ->
  (0 <=? mst_merchant.balance m)%float = true ->
  served faulty c 5 ->
  exists p' c',
    Create faulty payload c = (Ok p', c') /\
    Transactions.TransactionDetail p' = [] /\
    orders (committed c') =
      orders (committed c) ++
        [transactions.mk (Transactions.TransactionsId p')
           (Transactions.MerchantId payload) (Transactions.UserId payload)
           (Transactions.CustomerName payload)
           (Transactions.DestinationNumber payload) parsedDate] /\
    order_lines (committed c') = order_lines (committed c) /\
    merchants (committed c') = merchants (committed c).
Proof.
  intros HP Hnil Hm Hpos Hs.
  destruct (Create_runs faulty payload parsedDate m [] c) as (p' & c' & E); try done.
  - rewrite Hnil. constructor.
  - by apply f64_nonneg_not_lt_zero.
  - by rewrite Hnil.
  - exists p', c'. split; [done |].
    apply Create_Ok in E as (d & m' & noms & out & HP' & Hm' & Hnoms & _ & Hout & -> & ->).
    rewrite Hnil in *. inversion Hnoms; subst. inversion Hout; subst.
    assert (d = parsedDate) as -> by congruence.
    assert (m' = m) as -> by congruence.
    simpl. split; [done |]. split; [done |]. split; [by rewrite app_nil_r |].
    unfold total. simpl. rewrite debit_zero. by apply insert_id.
Qed.

(** The price column of the rows an accepted order writes is the price of
    the payload, line by line. *)
Theorem Create_stored_prices payload c p' c' :
  Create faulty payload c = (Ok p', c') ->
  exists rows,
    order_lines (committed c') = order_lines (committed c) ++ rows /\
    transaction_detail.price <$> rows =
      TransactionDetail.Price <$> Transactions.TransactionDetail payload.
Proof.
  intros E. apply Create_Ok in E as (d & m & noms & out & _ & _ & _ & _ & _ & _ & ->).
  eexists. split; [reflexivity |]. generalize (S (sequence c)).
  induction (Transactions.TransactionDetail payload) as [|l rest IH]; intros n;
    [done |]. cbn [lineRows]. rewrite !fmap_cons. by rewrite IH.
Qed.

End CreateClaims.

(** *** The claims at the shop *)

Section CreateAtTheShop.

Import entity.

Lemma shop_nominals n :
  Forall2 (catalogNominal (products shop))
    (Transactions.TransactionDetail (orderOf "15-01-2024" n))
    (replicate n 5000%float).
Proof. induction n; simpl; constructor; [reflexivity | assumption]. Qed.

Lemma Create_invalid_date_witness :
  Create reliable (orderOf "2024-01-15" 1) (idle shop)
  = (Err InvalidDateFormat, idle shop).
Proof. apply Create_invalid_date. reflexivity. Defined.

Lemma Create_insufficient_balance_witness :
  exists c',
    Create reliable (orderOf "15-01-2024" 3) (idle shop) =
      (Err (InsufficientBalance 15000%float 10000%float), c') /\
    committed c' = shop /\ tx c' = None /\ last (log c') = Some EvRollback.
Proof.
  apply (Create_insufficient_balance reliable (orderOf "15-01-2024" 3)
           (time.mkTime 2024 1 15)
           (mst_merchant.mk "Toko Maju" "Jl. Melati 1" "u1" 10000%float)
           [5000; 5000; 5000]%float (idle shop)).
  - reflexivity.
  - vm_compute. reflexivity.
  - repeat constructor.
  - intros i _. reflexivity.
  - reflexivity.
Defined.

Lemma Create_debits_total_nominal_witness :
  exists m m' noms,
    merchants shop !! "m1" = Some m /\
    Forall2 (catalogNominal (products shop))
      (Transactions.TransactionDetail (orderOf "15-01-2024" 2)) noms /\
    merchants (committed (Create reliable (orderOf "15-01-2024" 2) (idle shop)).2)
      !! "m1" = Some m' /\
    mst_merchant.balance m' =
      (mst_merchant.balance m - fold_left PrimFloat.add noms 0)%float /\
    forall id, id <> "m1" ->
      merchants (committed (Create reliable (orderOf "15-01-2024" 2) (idle shop)).2)
        !! id = merchants shop !! id.
Proof.
  eapply (Create_debits_total_nominal reliable (orderOf "15-01-2024" 2) (idle shop)).
  vm_compute. reflexivity.
Defined.

Lemma Create_failure_rolls_back_witness :
  let c' := (Create (refusing 4) (orderOf "15-01-2024" 1) (idle shop)).2 in
  committed c' = shop /\ tx c' = None /\
  (last (log c') = Some EvRollback \/ last (log c') = Some EvCommit).
Proof.
  eapply (Create_failure_rolls_back (refusing 4) (orderOf "15-01-2024" 1)
            (time.mkTime 2024 1 15) (idle shop)).
  - reflexivity.
  - reflexivity.
  - vm_compute. reflexivity.
Defined.

Lemma Create_returns_priced_order_witness :
  let p' := Transactions.mk "0" "m1" "u1" "Budi" "081234" "15-01-2024"
              [TransactionDetail.mk "1" "0" "p1" 6000%float;
               TransactionDetail.mk "2" "0" "p1" 6000%float] in
  let c' := (Create reliable (orderOf "15-01-2024" 2) (idle shop)).2 in
  Transactions.TransactionsId p' = "0" /\
  length (Transactions.TransactionDetail p') = 2 /\
  (forall i o, Transactions.TransactionDetail p' !! i = Some o ->
     exists d product,
       Transactions.TransactionDetail (orderOf "15-01-2024" 2) !! i = Some d /\
       products shop !! TransactionDetail.ProductId d = Some product /\
       o = TransactionDetail.mk (pretty (1 + i)) "0"
             (TransactionDetail.ProductId d) (mst_product.price product)) /\
  (exists header,
     orders (committed c') = orders shop ++ [header] /\
     transactions.transaction_id header = "0") /\
  (exists rows,
     order_lines (committed c') = order_lines shop ++ rows /\
     transaction_detail.transaction_detail_id <$> rows =
       TransactionDetail.TransactionDetailId <$> Transactions.TransactionDetail p' /\
     Forall (fun r => transaction_detail.transaction_id r = "0") rows).
Proof.
  intros p' c'.
  apply (Create_returns_priced_order reliable (orderOf "15-01-2024" 2) (idle shop) p' c').
  vm_compute. reflexivity.
Defined.

Lemma Create_empty_order_witness :
  exists p' c',
    Create reliable (orderOf "15-01-2024" 0) (idle shop) = (Ok p', c') /\
    Transactions.TransactionDetail p' = [] /\
    orders (committed c') =
      orders shop ++
        [transactions.mk (Transactions.TransactionsId p') "m1" "u1" "Budi" "081234"
           (time.mkTime 2024 1 15)] /\
    order_lines (committed c') = order_lines shop /\
    merchants (committed c') = merchants shop.
Proof.
  apply (Create_empty_order reliable (orderOf "15-01-2024" 0) (time.mkTime 2024 1 15)
           (mst_merchant.mk "Toko Maju" "Jl. Melati 1" "u1" 10000%float) (idle shop)).
  - reflexivity.
  - reflexivity.
  - vm_compute. reflexivity.
  - reflexivity.
  - intros i _. reflexivity.
Defined.

(** C4, at the shop.  An order of one unit of [p1] whose line claims the
    price 1 is accepted; the row written to [transaction_detail] holds the
    price 1 the payload carried, while the catalog price 6000 only reaches
    the line of the returned order. *)
Theorem Create_stores_payload_price :
  exists p' c',
    Create reliable (orderOf "15-01-2024" 1) (idle shop) = (Ok p', c') /\
    transaction_detail.price <$> order_lines (committed c') = [1%float] /\
    TransactionDetail.Price <$> Transactions.TransactionDetail p' = [6000%float] /\
    mst_product.price <$> products shop !! "p1" = Some 6000%float.
Proof.
  eexists _, _. split; [vm_compute; reflexivity |]. repeat split.
Qed.

End CreateAtTheShop.

(** ** The read paths *)

Section ReadFacts.

Import custom joined.

Lemma GetAll_transactionMap_snoc rows r :
  GetAll_transactionMap (rows ++ [r]) = GetAll_scan (GetAll_transactionMap rows) r.
Proof. unfold GetAll_transactionMap. by rewrite fold_left_app. Qed.

Lemma rowsOf_snoc id rows r :
  rowsOf id (rows ++ [r]) =
    if decide (t_transaction_id r = id) then rowsOf id rows ++ [r] else rowsOf id rows.
Proof.
  unfold rowsOf. rewrite filter_app, filter_cons, filter_nil.
  case_decide; [done | by rewrite app_nil_r].
Qed.

Lemma rowsOf_id id rows r : r ∈ rowsOf id rows -> t_transaction_id r = id.
Proof. unfold rowsOf. rewrite list_elem_of_filter. by intros [? _]. Qed.

Lemma GetAll_transactionMap_lookup rows id :
  GetAll_transactionMap rows !! id =
    match rowsOf id rows with
    | [] => None
    | r :: rest => Some (aggregate r rest)
    end.
Proof.
  induction rows as [|r rows IH] using rev_ind; [done |].
  rewrite GetAll_transactionMap_snoc, rowsOf_snoc. unfold GetAll_scan.
  case_decide as Hid.
  - subst id. rewrite IH.
    destruct (rowsOf (t_transaction_id r) rows) as [|r0 rest]; simpl.
    + by rewrite lookup_insert_eq.
    + rewrite lookup_insert_eq. unfold appendDetail, aggregate. simpl.
      by rewrite fmap_app.
  - rewrite <- IH. by destruct (_ !! t_transaction_id r); rewrite lookup_insert_ne.
Qed.

Lemma GetAll_transactionMap_value rows id agg :
  GetAll_transactionMap rows !! id = Some agg ->
  TransactionsReq.TransactionsId agg = id /\
  TransactionsReq.TransactionDetail agg = GetAll_detail <$> rowsOf id rows /\
  rowsOf id rows <> [].
Proof.
  rewrite GetAll_transactionMap_lookup.
  destruct (rowsOf id rows) as [|r rest] eqn:E; [discriminate |]. intros [= <-].
  split; [| done]. simpl. apply (rowsOf_id id rows). rewrite E. by left.
Qed.

(** The part of C7 that [GetAll] keeps: one aggregate per order identifier
    among the rows, each holding the lines of its order in scan order. *)
Theorem GetAll_groups rows result :
  GetAll (Ok rows) (Ok result) ->
  NoDup (TransactionsReq.TransactionsId <$> result) /\
  (forall id, id ∈ TransactionsReq.TransactionsId <$> result <->
              id ∈ t_transaction_id <$> rows) /\
  (forall agg, agg ∈ result ->
     TransactionsReq.TransactionDetail agg =
       GetAll_detail <$> rowsOf (TransactionsReq.TransactionsId agg) rows).
Proof.
  intros (visited & Hrange & [= ->]). unfold range in Hrange.
  assert (Hv : forall k v, (k, v) ∈ visited -> GetAll_transactionMap rows !! k = Some v).
  { intros k v. rewrite Hrange. apply elem_of_map_to_list. }
  assert (Hids : TransactionsReq.TransactionsId <$> visited.*2 = visited.*1).
  { rewrite <- list_fmap_compose. apply Forall_fmap_ext_1, Forall_forall.
    intros [k v] Hkv. simpl. by apply Hv, GetAll_transactionMap_value in Hkv as [? _]. }
  rewrite Hids. split; [| split].
  - rewrite Hrange. apply NoDup_fst_map_to_list.
  - intros id. rewrite !list_elem_of_fmap. split.
    + intros ([k v] & -> & Hkv). simpl.
      apply Hv, GetAll_transactionMap_value in Hkv as (_ & _ & Hne).
      destruct (rowsOf k rows) as [|r rest] eqn:E; [done |].
      exists r. assert (Hr : r ∈ rowsOf k rows) by (rewrite E; by left).
      split; [symmetry; by eapply rowsOf_id |].
      unfold rowsOf in Hr. by apply list_elem_of_filter in Hr as [_ ?].
    + intros (r & -> & Hr).
      destruct (GetAll_transactionMap rows !! t_transaction_id r) as [agg|] eqn:E.
      * exists (t_transaction_id r, agg). split; [done |].
        rewrite Hrange. by apply elem_of_map_to_list.
      * rewrite GetAll_transactionMap_lookup in E.
        assert (Hin : r ∈ rowsOf (t_transaction_id r) rows).
        { unfold rowsOf. by apply list_elem_of_filter. }
        destruct (rowsOf (t_transaction_id r) rows); [by apply elem_of_nil in Hin | done].
  - intros agg. rewrite list_elem_of_fmap. intros ([k v] & -> & Hkv). simpl.
    apply Hv, GetAll_transactionMap_value in Hkv as (H1 & H2 & _). by rewrite H1.
Qed.

(** [GetAll] always has a value to return on a row set. *)
Lemma GetAll_returns rows : exists result, GetAll (Ok rows) (Ok result).
Proof.
  eexists. exists (map_to_list (GetAll_transactionMap rows)).
  split; [unfold range |]; reflexivity.
Qed.

(** C7, on two orders of two lines each: [GetAll] may return the earlier
    order first although the rows came in descending order of date. *)
Theorem GetAll_may_lose_date_order :
  exists result,
    GetAll (Ok twoOrders) (Ok result) /\
    TransactionsReq.TransactionsId <$> result = ["o2"; "o1"] /\
    length <$> (TransactionsReq.TransactionDetail <$> result) = [2; 2] /\
    dateDescending result = false.
Proof.
  exists [aggregate (line "o2" (time.mkTime 2024 1 1) "d3")
                    [line "o2" (time.mkTime 2024 1 1) "d4"];
          aggregate (line "o1" (time.mkTime 2024 2 2) "d1")
                    [line "o1" (time.mkTime 2024 2 2) "d2"]].
  split; [| by repeat split].
  eexists [("o2", _); ("o1", _)]. split; [| reflexivity].
  unfold range.
  assert (E : GetAll_transactionMap twoOrders =
              <["o2" := aggregate (line "o2" (time.mkTime 2024 1 1) "d3")
                                  [line "o2" (time.mkTime 2024 1 1) "d4"]]>
             (<["o1" := aggregate (line "o1" (time.mkTime 2024 2 2) "d1")
                                  [line "o1" (time.mkTime 2024 2 2) "d2"]]> ∅))
    by (vm_compute; reflexivity).
  rewrite E. rewrite map_to_list_insert by (vm_compute; reflexivity).
  rewrite map_to_list_insert by done. by rewrite map_to_list_empty.
Qed.

(** The row the second [rows.Next()] of a round reaches is never scanned. *)
Lemma GetById_loop_skips r1 r2 r2' rest transaction m :
  GetById_loop (r1 :: r2 :: rest) transaction m =
  GetById_loop (r1 :: r2' :: rest) transaction m.
Proof. reflexivity. Qed.

Lemma GetById_loop_scanned rows transaction m :
  GetById_loop rows transaction m =
    (foldl GetById_scan transaction (scanned rows),
     foldl (fun m r => <[td_transaction_detail_id r := GetById_detail r]> m) m
       (scanned rows)).
Proof.
  cut (forall rows transaction m,
         (GetById_loop rows transaction m =
            (foldl GetById_scan transaction (scanned rows),
             foldl (fun m r => <[td_transaction_detail_id r := GetById_detail r]> m) m
               (scanned rows))) /\
         forall r, GetById_loop (r :: rows) transaction m =
            (foldl GetById_scan transaction (scanned (r :: rows)),
             foldl (fun m r => <[td_transaction_detail_id r := GetById_detail r]> m) m
               (scanned (r :: rows)))).
  { intros H. apply H. }
  clear. intros rows. induction rows as [|r' rows IH]; intros transaction m.
  - split; [done |]. intros r. reflexivity.
  - split; [apply IH |]. intros r.
    change (GetById_loop (r :: r' :: rows) transaction m)
      with (GetById_loop rows (GetById_scan transaction r)
              (<[td_transaction_detail_id r := GetById_detail r]> m)).
    by destruct (IH (GetById_scan transaction r)
                   (<[td_transaction_detail_id r := GetById_detail r]> m)) as [-> _].
Qed.

(** C8, on an order of two lines [d1] and [d2]: [GetById] returns, and
    whatever it returns holds the line [d1] only. *)
Theorem GetById_drops_second_line :
  (exists result, GetById (Ok oneOrder) (Ok result)) /\
  forall result,
    GetById (Ok oneOrder) (Ok result) ->
    TransactionDetailReq.TransactionDetailId <$> TransactionsReq.TransactionDetail result
      = ["d1"].
Proof.
  split.
  - eexists. simpl. eexists. split; [unfold range |]; reflexivity.
  - intros result (visited & Hrange & [= ->]). unfold range in Hrange.
    rewrite insert_empty, map_to_list_singleton in Hrange.
    apply Permutation_singleton_r in Hrange as ->. reflexivity.
Qed.

(** C9. On a query that yields no row, [GetById] returns the zero value of
    the aggregate and no error, and nothing else. *)
Theorem GetById_no_rows result :
  GetById (Ok []) result <-> result = Ok TransactionsReq.zero.
Proof.
  simpl. unfold range. rewrite map_to_list_empty. split.
  - intros (visited & Hv & ->). by apply Permutation_nil_r in Hv as ->.
  - intros ->. by exists [].
Qed.

End ReadFacts.

(** * Further properties *)

Ltac length_norm :=
  repeat first [ rewrite length_app | rewrite length_replicate
               | rewrite length_lineEvents | progress cbn [length] ].

(** ** Dates *)

Section DateFacts.

Lemma isDigit_digit a :
  time.isDigit a = true -> time.digit a < 10 /\ time.digitChar (time.digit a) = a.
Proof.
  unfold time.isDigit, time.digit, time.digitChar. intros H.
  apply andb_true_iff in H as [H1 H2].
  apply Nat.leb_le in H1, H2. split; [lia |].
  rewrite Nat.mod_small by lia.
  replace (48 + (nat_of_ascii a - 48)) with (nat_of_ascii a) by lia.
  apply ascii_nat_embedding.
Qed.

Lemma digitChar_low x y : y < 10 -> time.digitChar (x * 10 + y) = time.digitChar y.
Proof.
  intros Hy. unfold time.digitChar. f_equal. f_equal.
  rewrite (Nat.mod_small y) by lia.
  symmetry. apply (Nat.mod_unique _ 10 x y); lia.
Qed.

Lemma div10_low x y : y < 10 -> (x * 10 + y) / 10 = x.
Proof. intros Hy. symmetry. apply (Nat.div_unique _ 10 x y); lia. Qed.

Lemma pad2_digits a b :
  time.isDigit a = true -> time.isDigit b = true ->
  time.pad2 (time.digit a * 10 + time.digit b) = String a (String b "").
Proof.
  intros Ha Hb. apply isDigit_digit in Ha as [Ha Ha'], Hb as [Hb Hb'].
  unfold time.pad2. rewrite div10_low, digitChar_low by done.
  by rewrite Ha', Hb'.
Qed.

Lemma pad4_digits a b c d :
  time.isDigit a = true -> time.isDigit b = true ->
  time.isDigit c = true -> time.isDigit d = true ->
  time.pad4 (((time.digit a * 10 + time.digit b) * 10 + time.digit c) * 10 + time.digit d)
  = String a (String b (String c (String d ""))).
Proof.
  intros Ha Hb Hc Hd.
  apply isDigit_digit in Ha as [Ha Ha'], Hb as [Hb Hb'], Hc as [Hc Hc'], Hd as [Hd Hd'].
  unfold time.pad4.
  set (x := time.digit a) in *. set (y := time.digit b) in *.
  set (z := time.digit c) in *. set (w := time.digit d) in *.
  replace (((x * 10 + y) * 10 + z) * 10 + w) with (x * 1000 + (y * 100 + z * 10 + w)) at 1
    by lia.
  rewrite <- (Nat.div_unique (x * 1000 + (y * 100 + z * 10 + w)) 1000 x (y * 100 + z * 10 + w))
    by lia.
  replace (((x * 10 + y) * 10 + z) * 10 + w) with ((x * 10 + y) * 100 + (z * 10 + w)) at 1
    by lia.
  rewrite <- (Nat.div_unique ((x * 10 + y) * 100 + (z * 10 + w)) 100 (x * 10 + y) (z * 10 + w))
    by lia.
  rewrite (div10_low _ w), !digitChar_low by done.
  by rewrite Ha', Hb', Hc', Hd'.
Qed.

Lemma Parse_shape s t :
  time.Parse s = Some t ->
  exists a b c d e f g h,
    s = String a (String b (String "-" (String c (String d (String "-"
          (String e (String f (String g (String h "")))))))))%char /\
    time.isDigit a = true /\ time.isDigit b = true /\ time.isDigit c = true /\
    time.isDigit d = true /\ time.isDigit e = true /\ time.isDigit f = true /\
    time.isDigit g = true /\ time.isDigit h = true /\
    t = time.mkTime
          (((time.digit e * 10 + time.digit f) * 10 + time.digit g) * 10 + time.digit h)
          (time.digit c * 10 + time.digit d)
          (time.digit a * 10 + time.digit b) /\
    calendarDate t.
Proof.
  unfold time.Parse, time.getnum, time.skip, time.getyear.
  destruct s as [|a [|b [|sep1 [|c [|d [|sep2 [|e [|f [|g [|h rest]]]]]]]]]];
    try discriminate.
  all: repeat (match goal with
               | |- context [if ?x then _ else _] => destruct x eqn:?
               | |- context [match ?x with String _ _ => _ | EmptyString => _ end] =>
                   destruct x eqn:?
               | |- context [match ?x with Ascii _ _ _ _ _ _ _ _ => _ end] =>
                   destruct x as [[] [] [] [] [] [] [] []] eqn:?
               end; try discriminate).
  intros [= <-]. subst.
  repeat match goal with
         | H : _ && _ = true |- _ => apply andb_true_iff in H as [? ?]
         end.
  exists a, b, c, d, e, f, g, h. repeat split; try done; simpl.
  - repeat match goal with
           | H : time.isDigit ?x = true |- _ => apply isDigit_digit in H as [? _]
           end. lia.
  - apply orb_false_iff in Heqb2 as [Hm _]. apply Nat.eqb_neq in Hm. lia.
  - apply orb_false_iff in Heqb2 as [_ Hm]. apply Nat.ltb_ge in Hm. lia.
  - apply orb_false_iff in Heqb4 as [Hd _]. apply Nat.ltb_ge in Hd. lia.
  - apply orb_false_iff in Heqb4 as [_ Hd]. by apply Nat.ltb_ge in Hd.
Qed.

Lemma Format_Parse s t : time.Parse s = Some t -> time.Format t = s.
Proof.
  intros H. apply Parse_shape in H
    as (a & b & c & d & e & f & g & h & -> & Ha & Hb & Hc & Hd & He & Hf & Hg & Hh & -> & _).
  unfold time.Format. simpl. by rewrite !pad2_digits, pad4_digits.
Qed.

End DateFacts.

(** ** [Create], further *)

Section CreateMore.

Import entity.

Variable faulty : nat -> bool.

Lemma tx_query_Ok_served {A} ev (read : Tables -> Res A) c a c' :
  tx_query faulty ev read c = (Ok a, c') -> faulty (length (log c)) = false.
Proof. unfold tx_query. by destruct (faulty _). Qed.

Lemma tx_insert_Ok_served ev ins c id c' :
  tx_insert faulty ev ins c = (Ok id, c') -> faulty (length (log c)) = false.
Proof. unfold tx_insert. by destruct (faulty _). Qed.

Lemma tx_update_Ok_served {A} ev (upd : Tables -> Res (A * Tables)) c a c' :
  tx_update faulty ev upd c = (Ok a, c') -> faulty (length (log c)) = false.
Proof. unfold tx_update. by destruct (faulty _). Qed.

Lemma served_join c c1 (l : list Event) k :
  served faulty c (length l) -> log c1 = log c ++ l -> served faulty c1 k ->
  served faulty c (length l + k).
Proof.
  intros H1 Hl H2 i Hi. destruct (decide (i < length l)) as [Hlt|Hge]; [by apply H1 |].
  replace (length (log c) + i) with (length (log c1) + (i - length l)).
  - apply H2. lia.
  - rewrite Hl, length_app. lia.
Qed.

Lemma served_one c : faulty (length (log c)) = false -> served faulty c 1.
Proof. intros H i Hi. replace i with 0 by lia. by rewrite Nat.add_0_r. Qed.

Lemma sumNominal_Ok_served details acc c t c' :
  sumNominal faulty details acc c = (Ok t, c') -> served faulty c (length details).
Proof.
  revert acc c. induction details as [|d rest IH]; intros acc c E; simpl in *.
  - intros i Hi. lia.
  - apply bind_Ok in E as (n & c1 & E & Ek). apply orRollback_Ok in E.
    pose proof (tx_query_Ok_served _ _ _ _ _ E) as Hf.
    apply tx_query_Ok in E as (w & _ & _ & ->).
    apply (served_join c (record EvSelectNominal c) [EvSelectNominal] (length rest));
      [by apply served_one | done | by eapply IH].
Qed.

Lemma insertDetails_Ok_served tid details c out c' :
  insertDetails faulty tid details c = (Ok out, c') ->
  served faulty c (2 * length details).
Proof.
  revert c out c'. induction details as [|d rest IH]; intros c out c' E; simpl in *.
  - intros i Hi. lia.
  - apply bind_Ok in E as (did & c1 & E & Ek). apply orRollback_Ok in E.
    pose proof (tx_insert_Ok_served _ _ _ _ _ E) as Hf1.
    apply tx_insert_Ok in E as (w & _ & -> & ->).
    apply bind_Ok in Ek as (price & c2 & E & Ek). apply orRollback_Ok in E.
    pose proof (tx_query_Ok_served _ _ _ _ _ E) as Hf2.
    apply tx_query_Ok in E as (w1 & _ & _ & ->).
    apply bind_Ok in Ek as (rest' & c3 & E & _). apply IH in E.
    replace (length rest + S (length rest + 0)) with (1 + 2 * length rest) by lia.
    change (S (1 + 2 * length rest))
      with (length [EvInsertTransactionDetail; EvSelectPrice] + 2 * length rest).
    eapply served_join; [| | exact E].
    + intros [|[|i]] Hi; simpl in Hi; [| | lia].
      * by rewrite Nat.add_0_r.
      * simpl in Hf2. by rewrite length_app in Hf2.
    + simpl. by rewrite <- app_assoc.
Qed.

Lemma Create_Ok_served payload c p' c' :
  Create faulty payload c = (Ok p', c') ->
  served faulty c (5 + 3 * length (Transactions.TransactionDetail payload)).
Proof.
  intros E. unfold Create in E.
  destruct (time.Parse _) as [parsedDate|]; [| discriminate].
  set (n := length (Transactions.TransactionDetail payload)).
  set (L := length (log c)).
  apply bind_Ok in E as ([] & c1 & E & Ek).
  unfold db_Begin in E. destruct (faulty (length (log c))) eqn:H0; [discriminate |].
  injection E as <-.
  apply bind_Ok in Ek as (currentBalance & c2 & E & Ek). apply orRollback_Ok in E.
  assert (H1 : faulty (L + 1) = false).
  { rewrite <- (tx_query_Ok_served _ _ _ _ _ E). f_equal. simpl. length_norm. done. }
  apply tx_query_Ok in E as (w & Hw & _ & ->). simpl in Hw. injection Hw as <-.
  apply bind_Ok in Ek as (totalNominal & c3 & E & Ek).
  assert (H2 : forall i, i < n -> faulty (L + 2 + i) = false).
  { intros i Hi. rewrite <- (sumNominal_Ok_served _ _ _ _ _ E i Hi).
    f_equal. simpl. length_norm. fold L. lia. }
  eapply sumNominal_Ok in E; [| reflexivity]. destruct E as (noms & _ & -> & ->).
  destruct (_ <? _)%float; [discriminate |].
  apply bind_Ok in Ek as (transactionId & c4 & E & Ek). apply orRollback_Ok in E.
  assert (H3 : faulty (L + 2 + n) = false).
  { rewrite <- (tx_insert_Ok_served _ _ _ _ _ E). f_equal. simpl. length_norm.
    fold L n. lia. }
  apply tx_insert_Ok in E as (w & Hw & -> & ->). simpl in Hw. injection Hw as <-.
  apply bind_Ok in Ek as (out & c5 & E & Ek).
  assert (H4 : forall i, i < 2 * n -> faulty (L + 3 + n + i) = false).
  { intros i Hi. rewrite <- (insertDetails_Ok_served _ _ _ _ _ E i Hi).
    f_equal. simpl. length_norm. fold L n. lia. }
  eapply insertDetails_Ok in E; [| reflexivity]. destruct E as [_ ->].
  apply bind_Ok in Ek as (newBalance & c6 & E & Ek). apply orRollback_Ok in E.
  assert (H5 : faulty (L + 3 + 3 * n) = false).
  { rewrite <- (tx_update_Ok_served _ _ _ _ _ E). f_equal. simpl. length_norm.
    fold L n. lia. }
  apply tx_update_Ok in E as (w & w' & _ & _ & ->).
  apply bind_Ok in Ek as ([] & c7 & E & _).
  assert (H6 : faulty (L + 4 + 3 * n) = false).
  { unfold tx_Commit in E.
    match type of E with
    | context [faulty ?e] =>
        replace (L + 4 + 3 * n) with e; [by destruct (faulty e) |]
    end.
    simpl. length_norm. fold L n. lia. }
  clear E. intros i Hi. fold L.
  destruct (decide (i = 0)) as [->|]; [by rewrite Nat.add_0_r |].
  destruct (decide (i = 1)) as [->|]; [done |].
  destruct (decide (i < 2 + n)).
  { replace (L + i) with (L + 2 + (i - 2)) by lia. apply H2. lia. }
  destruct (decide (i = 2 + n)) as [->|].
  { by replace (L + (2 + n)) with (L + 2 + n) by lia. }
  destruct (decide (i < 3 + 3 * n)).
  { replace (L + i) with (L + 3 + n + (i - (3 + n))) by lia. apply H4. lia. }
  destruct (decide (i = 3 + 3 * n)) as [->|].
  { by replace (L + (3 + 3 * n)) with (L + 3 + 3 * n) by lia. }
  by replace (L + i) with (L + 4 + 3 * n) by lia.
Qed.

Lemma sumNominal_missing pre d post noms acc c w :
  tx c = Some w ->
  served faulty c (S (length pre)) ->
  Forall2 (catalogNominal (products w)) pre noms ->
  products w !! TransactionDetail.ProductId d = None ->
  sumNominal faulty (pre ++ d :: post) acc c =
    (Err ErrNoRows,
     mkConn (committed c) None (sequence c)
       (log c ++ replicate (S (length pre)) EvSelectNominal ++ [EvRollback])).
Proof.
  intros Hw Hs HF Hd. revert acc c Hw Hs.
  induction HF as [|l n pre noms Hn HF IH]; intros acc c Hw Hs; simpl.
  - unfold bind, orRollback, select_nominal.
    rewrite (tx_query_run faulty _ _ c w); [| by eapply served_now | done].
    rewrite Hd. simpl. unfold with_tx, record. simpl. by rewrite <- app_assoc.
  - unfold catalogNominal in Hn.
    destruct (products w !! TransactionDetail.ProductId l) as [p|] eqn:Hp;
      [| discriminate]. injection Hn as <-.
    erewrite bind_run; cycle 1.
    { apply orRollback_run. unfold select_nominal.
      rewrite (tx_query_run faulty _ _ c w); [| by eapply served_now | done].
      by rewrite Hp. }
    rewrite IH; [| done |].
    + simpl. by rewrite <- app_assoc.
    + eapply (served_later faulty c _ [_] 1); [exact Hs | done | done].
Qed.

Lemma catalogNominal_unique catalog details noms noms' :
  Forall2 (catalogNominal catalog) details noms ->
  Forall2 (catalogNominal catalog) details noms' ->
  noms = noms'.
Proof.
  intros H. revert noms'. induction H as [|d n ds ns Hn _ IH]; intros noms' H'.
  - by inversion H'.
  - inversion H' as [|? n' ? ns' Hn' Hns']; subst. f_equal; [| by apply IH].
    unfold catalogNominal in *. congruence.
Qed.

(** Whatever makes [Create] fail leaves the committed tables alone. *)
Lemma Create_Err_committed payload c e c' :
  Create faulty payload c = (Err e, c') -> committed c' = committed c.
Proof.
  unfold Create. destruct (time.Parse _) as [parsedDate|]; [| by intros [= _ <-]].
  intros E. apply bind_Err in E as [E | ([] & c1 & E & Ek)]; unfold db_Begin in E;
    destruct (faulty (length (log c))); try discriminate.
  { by injection E as _ <-. }
  injection E as <-. cbv beta in Ek.
  cut (fails_clean
         (currentBalance <- orRollback (select_balance faulty (Transactions.MerchantId payload)) ;;
          totalNominal <- sumNominal faulty (Transactions.TransactionDetail payload) f64_zero ;;
          if (currentBalance <? totalNominal)%float then
            tx_Rollback ;; raise (InsufficientBalance totalNominal currentBalance)
          else
            transactionId <-
              orRollback (insertTransaction faulty (Transactions.MerchantId payload)
                            (Transactions.UserId payload)
                            (Transactions.CustomerName payload)
                            (Transactions.DestinationNumber payload) parsedDate) ;;
            details <- insertDetails faulty transactionId
                         (Transactions.TransactionDetail payload) ;;
            newBalance <-
              orRollback (updateMerchantBalance faulty totalNominal
                            (Transactions.MerchantId payload)) ;;
            tx_Commit faulty ;;
            ret (Transactions.mk transactionId
                   (Transactions.MerchantId payload)
                   (Transactions.UserId payload)
                   (Transactions.CustomerName payload)
                   (Transactions.DestinationNumber payload)
                   (time.Format parsedDate)
                   details))).
  { intros H. by destruct (H _ _ _ Ek) as [? _]. }
  apply fails_clean_bind; [apply in_unit_orRollback, keeps_tx_query |].
  intros currentBalance.
  apply fails_clean_bind; [apply in_unit_sumNominal |]. intros totalNominal.
  destruct (currentBalance <? totalNominal)%float.
  { apply in_unit_fails_clean, in_unit_insufficient. }
  apply fails_clean_bind; [apply in_unit_orRollback, keeps_tx_insert |].
  intros transactionId.
  apply fails_clean_bind; [apply in_unit_insertDetails |]. intros details.
  apply fails_clean_bind; [apply in_unit_orRollback, keeps_tx_update |].
  intros newBalance. apply fails_clean_commit.
Qed.

(** X1. [Create] makes a request to the store only for a date string of
    exactly ten characters that denotes a date of the calendar (month 1 to
    12, a day that exists in that month of that year). *)
Theorem Create_store_needs_calendar_date payload c r c' :
  Create faulty payload c = (r, c') ->
  log c' <> log c ->
  exists t,
    time.Parse (Transactions.TransactionDate payload) = Some t /\
    String.length (Transactions.TransactionDate payload) = 10 /\
    calendarDate t.
Proof.
  unfold Create. destruct (time.Parse _) as [t|] eqn:HP.
  - intros _ _. exists t. split; [done |].
    apply Parse_shape in HP
      as (a & b & c0 & d & e & f & g & h & -> & _ & _ & _ & _ & _ & _ & _ & _ & _ & Ht).
    by split.
  - by intros [= _ <-].
Qed.

(** X2. [Create] returns an order exactly when the date parses, the
    merchant row exists, every line's product is in the catalog, the
    balance is not below the sum of their nominal values, and the store
    serves the 5 + 3 N requests (N the number of lines) the function
    makes. *)
Theorem Create_succeeds_iff payload c :
  (exists p' c', Create faulty payload c = (Ok p', c')) <->
  (exists parsedDate m noms,
     time.Parse (Transactions.TransactionDate payload) = Some parsedDate /\
     merchants (committed c) !! Transactions.MerchantId payload = Some m /\
     Forall2 (catalogNominal (products (committed c)))
       (Transactions.TransactionDetail payload) noms /\
     (mst_merchant.balance m <? total noms)%float = false /\
     served faulty c (5 + 3 * length (Transactions.TransactionDetail payload))).
Proof.
  split.
  - intros (p' & c' & E). pose proof (Create_Ok_served _ _ _ _ E) as Hs.
    apply Create_Ok in E as (d & m & noms & out & HP & Hm & Hnoms & Hlt & _).
    by exists d, m, noms.
  - intros (d & m & noms & HP & Hm & Hnoms & Hlt & Hs).
    by eapply Create_runs.
Qed.

(** X3. The order [Create] returns carries the date string of the payload
    unchanged: formatting the parsed date gives back the text that was
    parsed, so the returned date parses again to the same date. *)
Theorem Create_returns_submitted_date payload c p' c' :
  Create faulty payload c = (Ok p', c') ->
  Transactions.TransactionDate p' = Transactions.TransactionDate payload /\
  exists parsedDate,
    time.Parse (Transactions.TransactionDate p') = Some parsedDate /\
    calendarDate parsedDate.
Proof.
  intros E. apply Create_Ok in E as (d & m & noms & out & HP & _ & _ & _ & _ & -> & _).
  simpl. rewrite (Format_Parse _ _ HP). split; [done |].
  exists d. split; [done |].
  by apply Parse_shape in HP
    as (? & ? & ? & ? & ? & ? & ? & ? & _ & _ & _ & _ & _ & _ & _ & _ & _ & _ & H).
Qed.

(** X4. For a merchant identifier that is not in [mst_merchant], [Create]
    returns the no-rows error after three requests (begin, the balance
    read, rollback): no product is read and nothing is written. *)
Theorem Create_unknown_merchant payload parsedDate c :
  time.Parse (Transactions.TransactionDate payload) = Some parsedDate ->
  merchants (committed c) !! Transactions.MerchantId payload = None ->
  served faulty c 2 ->
  Create faulty payload c =
    (Err ErrNoRows,
     mkConn (committed c) None (sequence c)
       (log c ++ [EvBegin; EvSelectBalance; EvRollback])).
Proof.
  intros HP Hm Hs. unfold Create. rewrite HP.
  rewrite (bind_run _ _ _ _ _ (db_Begin_run faulty c (served_now faulty _ _ Hs))).
  unfold bind, orRollback, select_balance.
  rewrite (tx_query_run faulty _ _ _ (committed c)); [| | done].
  - rewrite Hm. simpl. unfold with_tx, record. simpl. by rewrite <- !app_assoc.
  - simpl. rewrite length_app. simpl. apply Hs. lia.
Qed.

(** X5. When the product of some line is not in the catalog, [Create]
    returns the no-rows error at the first such line, whatever the balance
    is: the lines before it have been read, no line after it is, no row is
    inserted and the unit is rolled back. *)
Theorem Create_unknown_product payload parsedDate m pre d post noms c :
  time.Parse (Transactions.TransactionDate payload) = Some parsedDate ->
  merchants (committed c) !! Transactions.MerchantId payload = Some m ->
  Transactions.TransactionDetail payload = pre ++ d :: post ->
  Forall2 (catalogNominal (products (committed c))) pre noms ->
  products (committed c) !! TransactionDetail.ProductId d = None ->
  served faulty c (3 + length pre) ->
  Create faulty payload c =
    (Err ErrNoRows,
     mkConn (committed c) None (sequence c)
       (log c ++ [EvBegin; EvSelectBalance]
          ++ replicate (S (length pre)) EvSelectNominal ++ [EvRollback])).
Proof.
  intros HP Hm Hd Hnoms Hmiss Hs. unfold Create. rewrite HP, Hd.
  rewrite (bind_run _ _ _ _ _ (db_Begin_run faulty c (served_now faulty _ _ Hs))).
  erewrite bind_run; cycle 1.
  { apply orRollback_run. eapply select_balance_run; [| reflexivity | exact Hm].
    simpl. rewrite length_app. simpl. apply Hs. lia. }
  unfold bind.
  erewrite sumNominal_missing; [| reflexivity | | exact Hnoms | exact Hmiss].
  - simpl. by rewrite <- !app_assoc.
  - eapply (served_later faulty c _ [_; _] 2); [exact Hs | | done].
    simpl. by rewrite <- app_assoc.
Qed.

(** X6. Whatever [Create] returns, it has not changed the product
    catalog, it has neither added nor removed a merchant and has changed
    nothing of a merchant row but the balance, and the order and
    order-line rows that were committed are still there, in place, before
    any new one. *)
Theorem Create_preserves payload c r c' :
  Create faulty payload c = (r, c') ->
  products (committed c') = products (committed c) /\
  (forall id, is_Some (merchants (committed c') !! id) <->
              is_Some (merchants (committed c) !! id)) /\
  (forall id m m',
     merchants (committed c) !! id = Some m ->
     merchants (committed c') !! id = Some m' ->
     mst_merchant.name_merchant m' = mst_merchant.name_merchant m /\
     mst_merchant.address m' = mst_merchant.address m /\
     mst_merchant.id_user m' = mst_merchant.id_user m) /\
  orders (committed c) `prefix_of` orders (committed c') /\
  order_lines (committed c) `prefix_of` order_lines (committed c').
Proof.
  destruct r as [p'|e]; intros E.
  - apply Create_Ok in E as (d & m & noms & out & _ & Hm & _ & _ & _ & _ & ->).
    simpl. split; [done |]. split; [| split; [| split]].
    + intros id. destruct (decide (id = Transactions.MerchantId payload)) as [->|Hne].
      * rewrite lookup_insert_eq, Hm. split; eauto.
      * by rewrite lookup_insert_ne.
    + intros id m0 m' H0.
      destruct (decide (id = Transactions.MerchantId payload)) as [->|Hne].
      * rewrite lookup_insert_eq. intros [= <-].
        assert (m0 = m) as -> by congruence. done.
      * rewrite lookup_insert_ne by done. intros H'.
        assert (m0 = m') as -> by congruence. done.
    + by eexists.
    + by eexists.
  - apply Create_Err_committed in E. rewrite E.
    split; [done |]. split; [done |]. split; [| done].
    intros id m0 m' H0 H'. assert (m0 = m') as -> by congruence. done.
Qed.

(** X7. Orders submitted one after the other draw on the same balance:
    after an accepted order, a second order for the same merchant whose
    nominal total exceeds what the first left is refused with that
    remaining balance as the available amount, and the tables stay as the
    first order left them. *)
Theorem Create_second_order_refused p1 p2 parsedDate m noms1 noms2 c p1' c1 :
  Create faulty p1 c = (Ok p1', c1) ->
  merchants (committed c) !! Transactions.MerchantId p1 = Some m ->
  Forall2 (catalogNominal (products (committed c)))
    (Transactions.TransactionDetail p1) noms1 ->
  Transactions.MerchantId p2 = Transactions.MerchantId p1 ->
  time.Parse (Transactions.TransactionDate p2) = Some parsedDate ->
  Forall2 (catalogNominal (products (committed c)))
    (Transactions.TransactionDetail p2) noms2 ->
  served faulty c1 (2 + length (Transactions.TransactionDetail p2)) ->
  (mst_merchant.balance m - total noms1 <? total noms2)%float = true ->
  exists c2,
    Create faulty p2 c1 =
      (Err (InsufficientBalance (total noms2)
              (mst_merchant.balance m - total noms1)%float), c2) /\
    committed c2 = committed c1.
Proof.
  intros E Hm Hn1 Hmid HP Hn2 Hs Hlt.
  apply Create_Ok in E as (d & m' & noms & out & _ & Hm' & Hnoms & _ & _ & _ & ->).
  assert (m' = m) as -> by congruence.
  assert (noms = noms1) as -> by (by eapply catalogNominal_unique).
  unfold Create. rewrite HP.
  rewrite (Create_reads faulty p2 (debit (total noms1) m) noms2); [| | done | done].
  - simpl. rewrite Hlt. eexists. split; [reflexivity | done].
  - simpl. rewrite Hmid. by rewrite lookup_insert_eq.
Qed.

End CreateMore.

(** *** Not-a-number amounts *)

Lemma is_nan_spec (x : float64) : PrimFloat.is_nan x = true -> Prim2SF x = S754_nan.
Proof.
  unfold PrimFloat.is_nan. rewrite FloatAxioms.eqb_spec. unfold SFeqb.
  destruct (Prim2SF x) as [s|s| |s m e]; simpl; try done.
  - by destruct s.
  - destruct s; rewrite Z.compare_refl, Pos.compare_cont_refl; done.
Qed.

Lemma nan_is_nan (x : float64) : Prim2SF x = S754_nan -> PrimFloat.is_nan x = true.
Proof. intros H. unfold PrimFloat.is_nan. by rewrite FloatAxioms.eqb_spec, H. Qed.

Lemma f64_ltb_nan (x y : float64) :
  PrimFloat.is_nan x || PrimFloat.is_nan y = true -> (x <? y)%float = false.
Proof.
  intros H. rewrite ltb_spec. apply orb_true_iff in H as [H|H];
    apply is_nan_spec in H; rewrite H; [done |].
  unfold SFltb. by destruct (Prim2SF x) as [?|?| |? ? ?].
Qed.

Lemma f64_sub_nan (x y : float64) :
  PrimFloat.is_nan x || PrimFloat.is_nan y = true -> PrimFloat.is_nan (x - y) = true.
Proof.
  intros H. apply nan_is_nan. rewrite sub_spec.
  apply orb_true_iff in H as [H|H]; apply is_nan_spec in H; rewrite H; [done |].
  by destruct (Prim2SF x) as [?|?| |? ? ?].
Qed.

Section CreateNaN.

Import entity.

Variable faulty : nat -> bool.

(** X8. The balance check of [Create] is the comparison
    [currentBalance < totalNominal] on float64 values, which is false as
    soon as one side is not a number: with a NaN balance, or a NaN sum of
    nominal values, an order whose products exist is accepted, and the
    balance written back is NaN. *)
Theorem Create_nan_accepted payload parsedDate m noms c :
  time.Parse (Transactions.TransactionDate payload) = Some parsedDate ->
  merchants (committed c) !! Transactions.MerchantId payload = Some m ->
  Forall2 (catalogNominal (products (committed c)))
    (Transactions.TransactionDetail payload) noms ->
  PrimFloat.is_nan (mst_merchant.balance m) || PrimFloat.is_nan (total noms) = true ->
  served faulty c (5 + 3 * length (Transactions.TransactionDetail payload)) ->
  exists p' c' m',
    Create faulty payload c = (Ok p', c') /\
    merchants (committed c') !! Transactions.MerchantId payload = Some m' /\
    PrimFloat.is_nan (mst_merchant.balance m') = true.
Proof.
  intros HP Hm Hnoms Hnan Hs.
  destruct (Create_runs faulty payload parsedDate m noms c) as (p' & c' & E); try done.
  { by apply f64_ltb_nan. }
  exists p', c', (debit (total noms) m). split; [done |].
  apply Create_Ok in E as (d & m0 & noms0 & out & _ & Hm0 & Hnoms0 & _ & _ & _ & ->).
  assert (m0 = m) as -> by congruence.
  assert (noms0 = noms) as -> by (by eapply catalogNominal_unique).
  simpl. split; [by rewrite lookup_insert_eq |]. by apply f64_sub_nan.
Qed.

End CreateNaN.

(** *** The further properties at the shop *)

Section MoreAtTheShop.

Import entity.

Lemma Create_store_needs_calendar_date_witness :
  exists t,
    time.Parse "29-02-2024" = Some t /\
    String.length "29-02-2024" = 10 /\
    calendarDate t.
Proof.
  apply (Create_store_needs_calendar_date reliable (orderOf "29-02-2024" 1) (idle shop)
           (Create reliable (orderOf "29-02-2024" 1) (idle shop)).1
           (Create reliable (orderOf "29-02-2024" 1) (idle shop)).2).
  - vm_compute. reflexivity.
  - vm_compute. discriminate.
Defined.

Lemma Create_returns_submitted_date_witness :
  let p' := Transactions.mk "0" "m1" "u1" "Budi" "081234" "15-01-2024"
              [TransactionDetail.mk "1" "0" "p1" 6000%float] in
  Transactions.TransactionDate p' = "15-01-2024" /\
  exists parsedDate,
    time.Parse (Transactions.TransactionDate p') = Some parsedDate /\
    calendarDate parsedDate.
Proof.
  eapply (Create_returns_submitted_date reliable (orderOf "15-01-2024" 1) (idle shop)).
  vm_compute. reflexivity.
Defined.

Lemma Create_unknown_merchant_witness :
  Create reliable (Transactions.mk "" "m9" "u1" "Budi" "081234" "15-01-2024" [])
    (idle shop)
  = (Err ErrNoRows, mkConn shop None 0 [EvBegin; EvSelectBalance; EvRollback]).
Proof.
  apply (Create_unknown_merchant reliable _ (time.mkTime 2024 1 15) (idle shop)).
  - reflexivity.
  - vm_compute. reflexivity.
  - intros i _. reflexivity.
Defined.

Lemma Create_unknown_product_witness :
  Create reliable
    (Transactions.mk "" "m1" "u1" "Budi" "081234" "15-01-2024"
       [TransactionDetail.mk "" "" "p1" 1%float;
        TransactionDetail.mk "" "" "p7" 1%float;
        TransactionDetail.mk "" "" "p1" 1%float])
    (idle shop)
  = (Err ErrNoRows,
     mkConn shop None 0
       [EvBegin; EvSelectBalance; EvSelectNominal; EvSelectNominal; EvRollback]).
Proof.
  apply (Create_unknown_product reliable _ (time.mkTime 2024 1 15)
           (mst_merchant.mk "Toko Maju" "Jl. Melati 1" "u1" 10000%float)
           [TransactionDetail.mk "" "" "p1" 1%float]
           (TransactionDetail.mk "" "" "p7" 1%float)
           [TransactionDetail.mk "" "" "p1" 1%float]
           [5000%float] (idle shop)).
  - reflexivity.
  - vm_compute. reflexivity.
  - reflexivity.
  - repeat constructor.
  - vm_compute. reflexivity.
  - intros i _. reflexivity.
Defined.

Lemma Create_preserves_witness :
  let c' := (Create reliable (orderOf "15-01-2024" 2) (idle shop)).2 in
  products (committed c') = products shop /\
  (forall id, is_Some (merchants (committed c') !! id) <->
              is_Some (merchants shop !! id)) /\
  (forall id m m',
     merchants shop !! id = Some m ->
     merchants (committed c') !! id = Some m' ->
     mst_merchant.name_merchant m' = mst_merchant.name_merchant m /\
     mst_merchant.address m' = mst_merchant.address m /\
     mst_merchant.id_user m' = mst_merchant.id_user m) /\
  orders shop `prefix_of` orders (committed c') /\
  order_lines shop `prefix_of` order_lines (committed c').
Proof.
  apply (Create_preserves reliable (orderOf "15-01-2024" 2) (idle shop)
           (Create reliable (orderOf "15-01-2024" 2) (idle shop)).1).
  vm_compute. reflexivity.
Defined.

Lemma Create_second_order_refused_witness :
  exists c2,
    Create reliable (orderOf "16-01-2024" 1)
      (Create reliable (orderOf "15-01-2024" 2) (idle shop)).2
    = (Err (InsufficientBalance 5000%float 0%float), c2) /\
    committed c2 = committed (Create reliable (orderOf "15-01-2024" 2) (idle shop)).2.
Proof.
  eapply (Create_second_order_refused reliable (orderOf "15-01-2024" 2)
            (orderOf "16-01-2024" 1) (time.mkTime 2024 1 16)
            (mst_merchant.mk "Toko Maju" "Jl. Melati 1" "u1" 10000%float)
            [5000; 5000]%float [5000%float] (idle shop)).
  - vm_compute. reflexivity.
  - vm_compute. reflexivity.
  - repeat constructor.
  - reflexivity.
  - reflexivity.
  - repeat constructor.
  - intros i _. reflexivity.
  - reflexivity.
Defined.

Lemma Create_nan_accepted_witness :
  exists p' c' m',
    Create reliable (orderOf "15-01-2024" 3)
      (idle (mkTables {[ "m1" := mst_merchant.mk "Toko Maju" "Jl. Melati 1" "u1"
                                   PrimFloat.nan ]}
               (products shop) [] []))
    = (Ok p', c') /\
    merchants (committed c') !! "m1" = Some m' /\
    PrimFloat.is_nan (mst_merchant.balance m') = true.
Proof.
  apply (Create_nan_accepted reliable (orderOf "15-01-2024" 3) (time.mkTime 2024 1 15)
           (mst_merchant.mk "Toko Maju" "Jl. Melati 1" "u1" PrimFloat.nan)
           [5000; 5000; 5000]%float).
  - reflexivity.
  - vm_compute. reflexivity.
  - repeat constructor.
  - reflexivity.
  - intros i _. reflexivity.
Defined.

End MoreAtTheShop.

(** ** The read paths, further *)

Section ReadMore.

Import custom joined.

(** X9. What [GetAll] returns on a row set is, up to the order of the
    list, the aggregates of the orders met among the rows, one per order
    identifier: each has the header, user and merchant fields of the first
    row scanned for its order and the lines of all rows of its order, in
    scan order. *)
Theorem GetAll_aggregates rows result :
  GetAll (Ok rows) (Ok result) ->
  NoDup (TransactionsReq.TransactionsId <$> result) /\
  forall agg,
    agg ∈ result <->
    exists r rest, rowsOf (t_transaction_id r) rows = r :: rest /\ agg = aggregate r rest.
Proof.
  intros (visited & Hrange & [= ->]). unfold range in Hrange.
  assert (Hv : forall k v, (k, v) ∈ visited <-> GetAll_transactionMap rows !! k = Some v).
  { intros k v. rewrite Hrange. apply elem_of_map_to_list. }
  split.
  - assert (Hids : TransactionsReq.TransactionsId <$> visited.*2 = visited.*1).
    { rewrite <- list_fmap_compose. apply Forall_fmap_ext_1, Forall_forall.
      intros [k v] Hkv. simpl.
      by apply Hv, GetAll_transactionMap_value in Hkv as [? _]. }
    rewrite Hids, Hrange. apply NoDup_fst_map_to_list.
  - intros agg. rewrite list_elem_of_fmap. split.
    + intros ([k v] & -> & Hkv). simpl. apply Hv in Hkv.
      rewrite GetAll_transactionMap_lookup in Hkv.
      destruct (rowsOf k rows) as [|r rest] eqn:E; [discriminate |].
      injection Hkv as <-. exists r, rest. split; [| done].
      assert (t_transaction_id r = k) as ->; [| done].
      apply (rowsOf_id k rows). rewrite E. by left.
    + intros (r & rest & E & ->). exists (t_transaction_id r, aggregate r rest).
      split; [done |]. apply Hv. by rewrite GetAll_transactionMap_lookup, E.
Qed.

Lemma GetAll_scan_lines (m : gmap string TransactionsReq.t) r :
  map_to_list (GetAll_scan m r) ≫= (fun kv => TransactionsReq.TransactionDetail kv.2)
  ≡ₚ (map_to_list m ≫= (fun kv => TransactionsReq.TransactionDetail kv.2))
       ++ [GetAll_detail r].
Proof.
  unfold GetAll_scan. destruct (m !! t_transaction_id r) as [e|] eqn:E.
  - rewrite <- insert_delete_eq.
    rewrite map_to_list_insert by apply lookup_delete_eq.
    rewrite <- (map_to_list_delete m _ _ E). rewrite !bind_cons. simpl.
    rewrite <- !app_assoc. apply Permutation_app_head, Permutation_app_comm.
  - rewrite map_to_list_insert by done. rewrite bind_cons. simpl.
    apply (Permutation_app_comm [_]).
Qed.

(** X10. [GetAll] loses no row and invents none: the lines of the
    aggregates it returns, taken together, are the lines of the scanned
    rows, each as often as it was scanned. *)
Theorem GetAll_keeps_every_row rows result :
  GetAll (Ok rows) (Ok result) ->
  result ≫= TransactionsReq.TransactionDetail ≡ₚ GetAll_detail <$> rows.
Proof.
  intros (visited & Hrange & [= ->]). unfold range in Hrange.
  rewrite list_fmap_bind, Hrange. clear.
  induction rows as [|r rows IH] using rev_ind.
  - unfold GetAll_transactionMap. simpl. by rewrite map_to_list_empty.
  - rewrite GetAll_transactionMap_snoc, fmap_app.
    etrans; [apply GetAll_scan_lines |]. by apply Permutation_app.
Qed.

Lemma rowsOf_same r rest id :
  Forall (fun x => t_transaction_id x = t_transaction_id r) rest ->
  rowsOf id (r :: rest) = if decide (t_transaction_id r = id) then r :: rest else [].
Proof.
  intros H. unfold rowsOf. rewrite filter_cons.
  assert (Hrest : filter (fun x => t_transaction_id x = id) rest =
                  if decide (t_transaction_id r = id) then rest else []).
  { induction H as [|x xs Hx _ IH]; [by case_decide |].
    rewrite filter_cons, IH. rewrite Hx. by case_decide. }
  rewrite Hrest. by case_decide.
Qed.

(** X11. When all rows belong to one order, [GetAll] has one value to
    return: the list holding the aggregate of that order with all its
    lines in scan order. *)
Theorem GetAll_single_order r rest result :
  Forall (fun x => t_transaction_id x = t_transaction_id r) rest ->
  GetAll (Ok (r :: rest)) result <-> result = Ok [aggregate r rest].
Proof.
  intros H.
  assert (E : GetAll_transactionMap (r :: rest) = {[ t_transaction_id r := aggregate r rest ]}).
  { apply map_eq. intros id. rewrite GetAll_transactionMap_lookup, rowsOf_same by done.
    case_decide as Hid.
    - subst id. by rewrite lookup_singleton_eq.
    - by rewrite lookup_singleton_ne. }
  unfold GetAll, range. rewrite E, map_to_list_singleton. split.
  - intros (visited & Hv & ->). by apply Permutation_singleton_r in Hv as ->.
  - intros ->. by eexists [_].
Qed.

(** X12. On a query that yields no row, [GetAll] returns the empty list
    and no error. *)
Theorem GetAll_no_rows result : GetAll (Ok []) result <-> result = Ok [].
Proof.
  unfold GetAll, range, GetAll_transactionMap. simpl. rewrite map_to_list_empty. split.
  - intros (visited & Hv & ->). by apply Permutation_nil_r in Hv as ->.
  - intros ->. by exists [].
Qed.

Lemma GetById_map_lookup (rs : list row) (m : gmap string TransactionDetailReq.t) k :
  foldl (fun m r => <[td_transaction_detail_id r := GetById_detail r]> m) m rs !! k =
    match last (filter (fun r => td_transaction_detail_id r = k) rs) with
    | Some r => Some (GetById_detail r)
    | None => m !! k
    end.
Proof.
  revert m. induction rs as [|r rs IH]; intros m; [done |].
  simpl. rewrite IH, filter_cons. case_decide as Hk.
  - rewrite last_cons. destruct (last (filter _ rs)); [done |].
    subst k. by rewrite lookup_insert_eq.
  - destruct (last (filter _ rs)); [done |]. by rewrite lookup_insert_ne.
Qed.

Lemma length_scanned (rows : list row) : length (scanned rows) = (length rows + 1) / 2.
Proof.
  cut (forall rows : list row,
         length (scanned rows) = (length rows + 1) / 2 /\
         forall r, length (scanned (r :: rows)) = (length (r :: rows) + 1) / 2).
  { intros H. apply H. }
  clear. intros rows. induction rows as [|r' rows [IH1 IH2]].
  - split; [done |]. intros r. reflexivity.
  - split; [apply IH2 |]. intros r.
    change (scanned (r :: r' :: rows)) with (r :: scanned rows). simpl length.
    rewrite IH1. replace (S (S (length rows)) + 1) with (length rows + 1 + 1 * 2) by lia.
    rewrite Nat.div_add by done. lia.
Qed.

Lemma GetById_scan_lines transaction (rs : list row) :
  TransactionsReq.TransactionDetail (foldl GetById_scan transaction rs) =
  TransactionsReq.TransactionDetail transaction.
Proof.
  revert transaction. induction rs as [|r rs IH]; intros transaction; [done |].
  simpl. by rewrite IH.
Qed.

(** X13. The lines [GetById] returns are those of the rows its loop
    scans, the first, third, fifth, ... row of the result set: one line per
    line identifier met there, built from the last scanned row that
    carries the identifier, so never more than half of the rows, rounded
    up. *)
Theorem GetById_returned_lines rows result :
  GetById (Ok rows) (Ok result) ->
  let lines := TransactionsReq.TransactionDetail result in
  NoDup (TransactionDetailReq.TransactionDetailId <$> lines) /\
  (forall l, l ∈ lines <->
     exists r, last (filter (fun x => td_transaction_detail_id x = td_transaction_detail_id r)
                       (scanned rows)) = Some r /\
               l = GetById_detail r) /\
  length lines <= (length rows + 1) / 2.
Proof.
  unfold GetById. rewrite GetById_loop_scanned.
  intros (visited & Hrange & [= ->]). unfold range in Hrange.
  unfold withDetails. simpl. rewrite GetById_scan_lines. simpl.
  set (m := foldl _ ∅ (scanned rows)) in *.
  assert (Hv : forall k v, (k, v) ∈ visited <-> m !! k = Some v).
  { intros k v. rewrite Hrange. apply elem_of_map_to_list. }
  assert (Hm : forall k v, m !! k = Some v <->
            exists r, last (filter (fun x => td_transaction_detail_id x = k) (scanned rows))
                        = Some r /\ v = GetById_detail r).
  { intros k v. unfold m. rewrite GetById_map_lookup, lookup_empty.
    destruct (last _) as [r|]; split.
    - intros [= <-]. eauto.
    - by intros (r' & [= <-] & ->).
    - discriminate.
    - by intros (? & ? & _). }
  assert (Hkey : forall k v, m !! k = Some v -> TransactionDetailReq.TransactionDetailId v = k).
  { intros k v (r & Hr & ->)%Hm. simpl.
    apply last_Some_elem_of, list_elem_of_filter in Hr. by destruct Hr. }
  assert (Hids : TransactionDetailReq.TransactionDetailId <$> visited.*2 = visited.*1).
  { rewrite <- list_fmap_compose. apply Forall_fmap_ext_1, Forall_forall.
    intros [k v] Hkv. simpl. by apply Hv, Hkey in Hkv. }
  assert (Hnd : NoDup (TransactionDetailReq.TransactionDetailId <$> visited.*2)).
  { rewrite Hids, Hrange. apply NoDup_fst_map_to_list. }
  split; [done |]. split.
  - intros l. rewrite list_elem_of_fmap. split.
    + intros ([k v] & -> & Hkv). simpl. apply Hv in Hkv.
      pose proof (Hkey _ _ Hkv) as Hk. apply Hm in Hkv as (r & Hr & ->).
      exists r. split; [| done]. simpl in Hk. by rewrite Hk.
    + intros (r & Hr & ->). exists (td_transaction_detail_id r, GetById_detail r).
      split; [done |]. apply Hv, Hm. eauto.
  - trans (length (scanned rows)); [| rewrite length_scanned; reflexivity].
    rewrite <- (length_fmap TransactionDetailReq.TransactionDetailId).
    rewrite <- (length_fmap td_transaction_detail_id (scanned rows)).
    apply submseteq_length, NoDup_submseteq; [done |].
    intros k. rewrite Hids, !list_elem_of_fmap.
    intros ([k' v] & -> & Hkv). simpl. apply Hv, Hm in Hkv as (r & Hr & _).
    apply last_Some_elem_of, list_elem_of_filter in Hr as [Hk Hr]. eauto.
Qed.

(** X14. The header, user and merchant fields [GetById] returns are those
    of the last row its loop scans. *)
Theorem GetById_header rows result r :
  GetById (Ok rows) (Ok result) ->
  last (scanned rows) = Some r ->
  TransactionsReq.TransactionsId result = t_transaction_id r /\
  TransactionsReq.CustomerName result = t_customer_name r /\
  TransactionsReq.DestinationNumber result = t_destination_number r /\
  TransactionsReq.TransactionDate result = t_transaction_date r /\
  TransactionsReq.User result = scanUser r /\
  TransactionsReq.Merchant result = scanMerchant r.
Proof.
  unfold GetById. rewrite GetById_loop_scanned.
  intros (visited & _ & [= ->]) Hlast.
  apply last_Some in Hlast as [pre ->]. rewrite foldl_app. by simpl.
Qed.

(** X15. On a row set of one row, [GetById] has one value to return: the
    aggregate holding the header, user and merchant of that row and its
    line. *)
Theorem GetById_single_row r result :
  GetById (Ok [r]) result <->
  result = Ok (TransactionsReq.mk (t_transaction_id r) (t_customer_name r)
                 (t_destination_number r) (t_transaction_date r)
                 (scanUser r) (scanMerchant r) [GetById_detail r]).
Proof.
  unfold GetById, range. simpl. rewrite insert_empty, map_to_list_singleton. split.
  - intros (visited & Hv & ->). by apply Permutation_singleton_r in Hv as ->.
  - intros ->. by eexists [_].
Qed.

End ReadMore.

(** ** Configuration and the start of the server *)

Section ConfigFacts.

Import config.

Lemma isEmpty_false s : isEmpty s = false <-> s <> "".
Proof. destruct s; simpl; split; congruence. Qed.

Lemma length_eqb_false s : (String.length s =? 0)%nat = false <-> s <> "".
Proof. destruct s; simpl; split; congruence. Qed.

Lemma required_checked (p : Process) :
  isEmpty (Getenv p "DB_HOST") || isEmpty (Getenv p "DB_PORT")
  || isEmpty (Getenv p "DB_USER") || isEmpty (Getenv p "DB_NAME")
  || isEmpty (Getenv p "DB_DRIVER") || isEmpty (Getenv p "API_PORT")
  || isEmpty (Getenv p "TOKEN_ISSUE")
  || (wrap64 (fst (strconv.Atoi (Getenv p "TOKEN_EXPIRE")) * Minute) <? 0)%Z
  || (String.length (Getenv p "TOKEN_SECRET") =? 0)%nat = false
  <->
  Forall (fun k => Getenv p k <> "") requiredVariables /\
  (0 <= wrap64 (fst (strconv.Atoi (Getenv p "TOKEN_EXPIRE")) * Minute))%Z.
Proof.
  rewrite !orb_false_iff, !isEmpty_false, length_eqb_false, Z.ltb_ge.
  unfold requiredVariables. rewrite !Forall_cons, Forall_nil. tauto.
Qed.

(** X16. [NewConfig] returns a configuration exactly when the [.env] file
    can be read, each of DB_HOST, DB_PORT, DB_USER, DB_NAME, DB_DRIVER,
    API_PORT, TOKEN_ISSUE and TOKEN_SECRET has a non-empty value once the
    file is loaded, and the token lifetime computed from TOKEN_EXPIRE is
    not negative.  DB_PASSWORD and TOKEN_EXPIRE themselves may be
    missing. *)
Theorem NewConfig_succeeds_iff p :
  (exists cfg, fst (NewConfig p) = (Some cfg, None)) <->
  (exists file, dotenv p = inr file) /\
  Forall (fun k => Getenv (snd (godotenv_Load p)) k <> "") requiredVariables /\
  (0 <= wrap64 (fst (strconv.Atoi (Getenv (snd (godotenv_Load p)) "TOKEN_EXPIRE"))
                * Minute))%Z.
Proof.
  unfold NewConfig, readConfigEnvironment, godotenv_Load.
  destruct (dotenv p) as [message|file] eqn:Hfile; simpl.
  - split; [by intros [cfg [=]] | by intros [[file [=]] _]].
  - set (p' := mkProcess _ _). rewrite <- (required_checked p').
    destruct (_ || _); simpl; split.
    + by intros [cfg [=]].
    + by intros (_ & [=]).
    + intros _. eauto.
    + intros _. eauto.
Qed.

Lemma wrap64_small z :
  (- 9223372036854775808 <= z <= 9223372036854775807)%Z -> wrap64 z = z.
Proof. intros H. unfold wrap64. rewrite Z.mod_small; lia. Qed.

Lemma wrap64_range z :
  (- 9223372036854775808 <= wrap64 z <= 9223372036854775807)%Z.
Proof.
  unfold wrap64.
  pose proof (Z.mod_pos_bound (z + 9223372036854775808) 18446744073709551616).
  lia.
Qed.

(** X17. In the configuration [NewConfig] returns, the token lifetime is
    the number of minutes TOKEN_EXPIRE gives exactly when that number is
    between 0 and 153722867; beyond that the 64-bit product has wrapped
    around and the lifetime is another one. *)
Theorem NewConfig_expiry_exact p cfg err p' :
  NewConfig p = ((Some cfg, err), p') ->
  let minutes := fst (strconv.Atoi (Getenv p' "TOKEN_EXPIRE")) in
  JwtExpiresTime (Token cfg) = (minutes * Minute)%Z <->
  (0 <= minutes <= maxMinutes)%Z.
Proof.
  unfold NewConfig, readConfigEnvironment, godotenv_Load.
  destruct (dotenv p) as [message|file]; simpl; [discriminate |].
  set (q := mkProcess _ _).
  destruct (_ || _) eqn:Hcheck; simpl; [discriminate |].
  intros [= <- <- <-]. simpl.
  apply required_checked in Hcheck as [_ Hpos].
  set (n := fst (strconv.Atoi (Getenv q "TOKEN_EXPIRE"))) in *.
  pose proof (wrap64_range (n * Minute)) as Hr.
  unfold Minute, maxMinutes in *. split.
  - intros H. rewrite H in Hpos, Hr. lia.
  - intros H. apply wrap64_small. lia.
Qed.



End ConfigFacts.

Section ServerFacts.

Import config.

Variable registered : string -> bool.

(** X19. [NewServer] drops the error of [NewConfig] and dereferences the
    configuration: it panics exactly when the [.env] file cannot be read,
    or one of the required variables is empty once the file is loaded, or
    the token lifetime computed from TOKEN_EXPIRE is negative.  An
    unregistered DB_DRIVER is not among these: the server is returned with
    a nil database handle. *)
Theorem NewServer_panics_iff p :
  NewServer registered p = Panics <->
  (exists message, dotenv p = inl message) \/
  Exists (fun k => Getenv (snd (godotenv_Load p)) k = "") requiredVariables \/
  (wrap64 (fst (strconv.Atoi (Getenv (snd (godotenv_Load p)) "TOKEN_EXPIRE")) * Minute)
   < 0)%Z.
Proof.
  unfold NewServer, NewConfig, readConfigEnvironment, godotenv_Load.
  destruct (dotenv p) as [message|file] eqn:Hfile; simpl.
  - split; [eauto | done].
  - set (q := mkProcess _ _).
    destruct (_ || _) eqn:Hcheck; simpl.
    + split; [intros _ | done]. right.
      destruct (decide (Forall (fun k => Getenv q k <> "") requiredVariables))
        as [Hall|Hsome].
      * right. apply Z.lt_nge. intros Hpos.
        assert (H : Forall (fun k => Getenv q k <> "") requiredVariables /\
                    (0 <= wrap64 (fst (strconv.Atoi (Getenv q "TOKEN_EXPIRE")) * Minute))%Z)
          by done.
        apply required_checked in H. congruence.
      * left. apply not_Forall_Exists in Hsome; [| apply _].
        eapply Exists_impl; [exact Hsome |]. simpl. intros k Hk.
        by destruct (decide (Getenv q k = "")).
    + apply required_checked in Hcheck as [Hall Hpos].
      split; [done |]. intros [[m [=]] | [Hex | Hneg]]; [| lia].
      apply Exists_exists in Hex as (k & Hk & Hempty).
      rewrite Forall_forall in Hall. by destruct (Hall k Hk).
Qed.

End ServerFacts.

(** ** The further properties on concrete inputs *)

Section MoreWitnesses.

Import custom joined config.

Lemma GetAll_aggregates_witness :
  let result := (map_to_list (GetAll_transactionMap twoOrders)).*2 in
  NoDup (TransactionsReq.TransactionsId <$> result) /\
  forall agg,
    agg ∈ result <->
    exists r rest,
      rowsOf (t_transaction_id r) twoOrders = r :: rest /\ agg = aggregate r rest.
Proof.
  apply (GetAll_aggregates twoOrders).
  exists (map_to_list (GetAll_transactionMap twoOrders)).
  split; [unfold range |]; reflexivity.
Defined.

Lemma GetAll_keeps_every_row_witness :
  (map_to_list (GetAll_transactionMap twoOrders)).*2
    ≫= TransactionsReq.TransactionDetail
  ≡ₚ GetAll_detail <$> twoOrders.
Proof.
  apply (GetAll_keeps_every_row twoOrders).
  exists (map_to_list (GetAll_transactionMap twoOrders)).
  split; [unfold range |]; reflexivity.
Defined.

Lemma GetAll_single_order_witness :
  GetAll (Ok oneOrder)
    (Ok [aggregate (line "o1" (time.mkTime 2024 2 2) "d1")
           [line "o1" (time.mkTime 2024 2 2) "d2"]]).
Proof.
  apply (GetAll_single_order (line "o1" (time.mkTime 2024 2 2) "d1")
           [line "o1" (time.mkTime 2024 2 2) "d2"]).
  - repeat constructor.
  - reflexivity.
Defined.

Lemma GetById_returned_lines_witness :
  let result := TransactionsReq.mk "o1" "Budi" "081234" (time.mkTime 2024 2 2)
                  (UserRes.mk "u1" "budi" "merchant")
                  (MerchantRes.mk "m1" "Toko Maju" "Jl. Melati 1")
                  [GetById_detail (line "o1" (time.mkTime 2024 2 2) "d1")] in
  let lines := TransactionsReq.TransactionDetail result in
  NoDup (TransactionDetailReq.TransactionDetailId <$> lines) /\
  (forall l, l ∈ lines <->
     exists r, last (filter (fun x => td_transaction_detail_id x = td_transaction_detail_id r)
                       (scanned oneOrder)) = Some r /\
               l = GetById_detail r) /\
  length lines <= (length oneOrder + 1) / 2.
Proof.
  intros result. apply (GetById_returned_lines oneOrder result).
  exists [("d1", GetById_detail (line "o1" (time.mkTime 2024 2 2) "d1"))].
  split; [| reflexivity].
  unfold range. simpl. rewrite insert_empty, map_to_list_singleton. reflexivity.
Defined.

Lemma GetById_header_witness :
  let result := TransactionsReq.mk "o1" "Budi" "081234" (time.mkTime 2024 2 2)
                  (UserRes.mk "u1" "budi" "merchant")
                  (MerchantRes.mk "m1" "Toko Maju" "Jl. Melati 1")
                  [GetById_detail (line "o1" (time.mkTime 2024 2 2) "d1")] in
  let r := line "o1" (time.mkTime 2024 2 2) "d1" in
  TransactionsReq.TransactionsId result = t_transaction_id r /\
  TransactionsReq.CustomerName result = t_customer_name r /\
  TransactionsReq.DestinationNumber result = t_destination_number r /\
  TransactionsReq.TransactionDate result = t_transaction_date r /\
  TransactionsReq.User result = scanUser r /\
  TransactionsReq.Merchant result = scanMerchant r.
Proof.
  intros result r. apply (GetById_header oneOrder result r).
  - exists [("d1", GetById_detail (line "o1" (time.mkTime 2024 2 2) "d1"))].
    split; [| reflexivity].
    unfold range. simpl. rewrite insert_empty, map_to_list_singleton. reflexivity.
  - reflexivity.
Defined.

Lemma NewConfig_expiry_exact_witness :
  JwtExpiresTime
    (mkToken "server-pulsa" "secret" SigningMethodHS256 3600000000000)
  = (60 * Minute)%Z
  <-> (0 <= 60 <= maxMinutes)%Z.
Proof.
  apply (NewConfig_expiry_exact (processWith "60")
           (mkConfig (mkDb "localhost" "5432" "pulsa" "" "pulsa" "postgres")
              (mkApi "8080")
              (mkToken "server-pulsa" "secret" SigningMethodHS256 3600000000000))
           None (snd (NewConfig (processWith "60")))).
  vm_compute. reflexivity.
Defined.


End MoreWitnesses.
